(** * Educational content generator ([app.py], class [ContentGenerator])

    A shallow embedding of the content-generation pipeline: text
    normalisation, concept extraction, assignment synthesis, quiz synthesis
    and the orchestrating [generate_content].

    Conventions.
    - A Python [str] is a list of characters; a character is a code point
      of the range U+0000..U+00FF, carried by [ascii].  The classification
      tables below are those of CPython on that range.
    - Calls that raise in Python return in [Exc]; code that draws from the
      [random] module runs in the monad [M], which threads the random
      source and propagates exceptions.
    - The iteration order of a Python [set] is not specified; it is
      modelled by an arbitrary ranking of the elements (see [list_of_set]). *)

From Stdlib Require Import String Ascii List Arith Lia Bool Sorted Permutation
  FinFun DecimalString.
From Equations Require Import Equations.
From Equations.Prop Require Import Logic.
Import ListNotations.

(** ** Python strings *)

Definition str := list ascii.

Definition lit (s : string) : str := list_ascii_of_string s.

Definition str_eq_dec : forall a b : str, {a = b} + {a <> b} :=
  list_eq_dec ascii_dec.

Definition str_eqb (a b : str) : bool :=
  if str_eq_dec a b then true else false.

Definition is_empty {A} (l : list A) : bool :=
  match l with [] => true | _ :: _ => false end.

Module PyChar.

Definition code (c : ascii) : nat := nat_of_ascii c.

Definition between (lo hi : nat) (c : ascii) : bool :=
  (lo <=? code c) && (code c <=? hi).

(** [str.isspace] and the class [\s] of [re]. *)
Definition isspace (c : ascii) : bool :=
  between 9 13 c || between 28 32 c || (code c =? 133) || (code c =? 160).

(** [str.isupper] on a one-character string. *)
Definition isupper (c : ascii) : bool :=
  between 65 90 c || between 192 214 c || between 216 222 c.

(** [str.lower] on a one-character string. *)
Definition lower (c : ascii) : ascii :=
  if isupper c then ascii_of_nat (code c + 32) else c.

(** The class [[A-Za-z]]. *)
Definition is_ascii_letter (c : ascii) : bool :=
  between 65 90 c || between 97 122 c.

(** The class [\w] of [re] on [str] patterns. *)
Definition is_word (c : ascii) : bool :=
  between 48 57 c || is_ascii_letter c || (code c =? 95)
  || (code c =? 170) || between 178 179 c || (code c =? 181)
  || between 185 186 c || between 188 190 c
  || between 192 214 c || between 216 246 c || between 248 255 c.

(** Membership in the character set given to [str.strip(chars)] or
    written as a character class [[...]]. *)
Definition one_of (chars : str) (c : ascii) : bool :=
  existsb (Ascii.eqb c) chars.

End PyChar.

Module PyStr.

(** [s.lower()] *)
Definition lower (s : str) : str := map PyChar.lower s.

Fixpoint lstrip (p : ascii -> bool) (s : str) : str :=
  match s with
  | [] => []
  | c :: s' => if p c then lstrip p s' else s
  end.

Definition rstrip (p : ascii -> bool) (s : str) : str :=
  rev (lstrip p (rev s)).

(** [s.strip()] is [strip PyChar.isspace s];
    [s.strip(chars)] is [strip (PyChar.one_of chars) s]. *)
Definition strip (p : ascii -> bool) (s : str) : str :=
  rstrip p (lstrip p s).

(** Segments of [s] between maximal runs of separator characters.
    [prev_sep] tells that the character before [s] was a separator. *)
Fixpoint split_runs (sep : ascii -> bool) (prev_sep : bool) (s : str)
  : list str :=
  match s with
  | [] => [[]]
  | c :: s' =>
      if sep c then
        if prev_sep then split_runs sep true s'
        else [] :: split_runs sep true s'
      else
        match split_runs sep false s' with
        | seg :: rest => (c :: seg) :: rest
        | [] => [[c]]
        end
  end.

(** [s.split()]: the non-empty segments between whitespace runs. *)
Definition split (s : str) : list str :=
  filter (fun w => negb (is_empty w)) (split_runs PyChar.isspace false s).

Fixpoint startswith (s prefix : str) {struct prefix} : bool :=
  match prefix, s with
  | [], _ => true
  | _ :: _, [] => false
  | p :: prefix', c :: s' => Ascii.eqb p c && startswith s' prefix'
  end.

(** [sub in s] *)
Fixpoint contains (sub s : str) : bool :=
  startswith s sub
  || match s with
     | [] => false
     | _ :: s' => contains sub s'
     end.

(** Left-to-right scan of [s.replace(old, new)] for a non-empty [old];
    [skip] counts the characters of the current match still to pass. *)
Fixpoint replace_scan (old new : str) (skip : nat) (s : str) : str :=
  match s with
  | [] => []
  | c :: s' =>
      match skip with
      | S k => replace_scan old new k s'
      | 0 =>
          if startswith s old
          then new ++ replace_scan old new (length old - 1) s'
          else c :: replace_scan old new 0 s'
      end
  end.

(** [s.replace(old, new)]: every non-overlapping occurrence, from the
    left; an empty [old] matches before each character and at the end. *)
Definition replace (s old new : str) : str :=
  match old with
  | [] => new ++ flat_map (fun c => c :: new) s
  | _ :: _ => replace_scan old new 0 s
  end.

(** [s.replace(old, new, 1)]: the first occurrence only. *)
Fixpoint replace_first (s old new : str) : str :=
  if startswith s old then new ++ skipn (length old) s
  else match s with
       | [] => []
       | c :: s' => c :: replace_first s' old new
       end.

(** [s[:n]] *)
Definition slice_to (n : nat) (s : str) : str := firstn n s.

End PyStr.

Module PyRe.

(** [re.sub(r'\s+', ' ', s)]; [in_run] tells that the character before
    [s] was whitespace, already replaced. *)
Fixpoint sub_spaces (in_run : bool) (s : str) : str :=
  match s with
  | [] => []
  | c :: s' =>
      if PyChar.isspace c then
        if in_run then sub_spaces true s'
        else " "%char :: sub_spaces true s'
      else c :: sub_spaces false s'
  end.

(** [re.split(r'[.!?]+', s)] *)
Definition split_sentences (s : str) : list str :=
  PyStr.split_runs (PyChar.one_of (lit ".!?")) false s.

(** [re.findall(r'\b[A-Za-z]+\b', s)]: a match starts and ends at a
    word boundary, so the matches are the maximal runs of [\w]
    characters that consist of ASCII letters only. *)
Definition findall_words (s : str) : list str :=
  filter (fun w => negb (is_empty w) && forallb PyChar.is_ascii_letter w)
         (PyStr.split_runs (fun c => negb (PyChar.is_word c)) false s).

End PyRe.


(** ** Exceptions, lists and dictionaries *)

(** What ends a call without a result: a Python exception, or [NoReturn],
    which is no exception but the mark of a rejection loop of [random] that
    the model follows no further (see [PyRandom.draw_unselected]). *)
Inductive PyError : Type := IndexError | ValueError | NoReturn.

Inductive Exc (A : Type) : Type :=
| Ok (a : A)
| Raise (e : PyError).

Arguments Ok {A} a.
Arguments Raise {A} e.

Definition bindE {A B} (x : Exc A) (k : A -> Exc B) : Exc B :=
  match x with
  | Ok a => k a
  | Raise e => Raise e
  end.

Notation "x <-? m ;; k" := (bindE m (fun x => k))
  (at level 61, m at next level, right associativity).

Fixpoint foldE {A S} (f : S -> A -> Exc S) (st : S) (l : list A) : Exc S :=
  match l with
  | [] => Ok st
  | a :: l' => st' <-? f st a ;; foldE f st' l'
  end.

Module PyList.

(** [l[i]] *)
Definition getitem {A} (l : list A) (i : nat) : Exc A :=
  match nth_error l i with
  | Some x => Ok x
  | None => Raise IndexError
  end.

(** [l[i] = v] *)
Fixpoint setitem {A} (l : list A) (i : nat) (v : A) : Exc (list A) :=
  match l, i with
  | [], _ => Raise IndexError
  | _ :: t, 0 => Ok (v :: t)
  | h :: t, S i' => t' <-? setitem t i' v ;; Ok (h :: t')
  end.

(** [l.index(x)] *)
Fixpoint index (l : list str) (x : str) : Exc nat :=
  match l with
  | [] => Raise ValueError
  | y :: l' =>
      if str_eq_dec y x then Ok 0
      else i <-? index l' x ;; Ok (S i)
  end.

(** [x in l] *)
Definition mem (x : str) (l : list str) : bool := existsb (str_eqb x) l.

(** [chr(n)]; code points above U+00FF are outside the modelled alphabet. *)
Definition chr (n : nat) : Exc str :=
  if n <? 256 then Ok [ascii_of_nat n] else Raise ValueError.

Fixpoint insert_by (rank : str -> nat) (x : str) (l : list str) : list str :=
  match l with
  | [] => [x]
  | y :: l' =>
      if rank x <=? rank y then x :: l else y :: insert_by rank x l'
  end.

(** [list(set(xs))]: the distinct elements of [xs], in the order of the
    set's hash table, which [rank] stands for. *)
Definition list_of_set (rank : str -> nat) (xs : list str) : list str :=
  fold_right (insert_by rank) [] (nodup str_eq_dec xs).

End PyList.

(** A [dict] from strings to counts, in insertion order. *)
Module PyDict.

Definition dict := list (str * nat).

(** [d.get(k, default)] *)
Fixpoint get (d : dict) (k : str) (default : nat) : nat :=
  match d with
  | [] => default
  | (k', v) :: d' => if str_eq_dec k' k then v else get d' k default
  end.

(** [d[k] = v]: an existing key keeps its place, a new one goes last. *)
Fixpoint set (d : dict) (k : str) (v : nat) : dict :=
  match d with
  | [] => [(k, v)]
  | (k', v') :: d' =>
      if str_eq_dec k' k then (k', v) :: d' else (k', v') :: set d' k v
  end.

(** [d.items()] *)
Definition items (d : dict) : list (str * nat) := d.

End PyDict.

(** ** The [random] module *)

(** The random source: the stream of raw draws still to come. *)
Definition Rand := nat -> nat.

Definition M (A : Type) : Type := Rand -> Exc (A * Rand).

Definition ret {A} (a : A) : M A := fun g => Ok (a, g).

Definition bind {A B} (m : M A) (k : A -> M B) : M B :=
  fun g =>
    match m g with
    | Ok (a, g') => k a g'
    | Raise e => Raise e
    end.

Definition raise {A} (e : PyError) : M A := fun _ => Raise e.

Definition lift {A} (x : Exc A) : M A :=
  fun g =>
    match x with
    | Ok a => Ok (a, g)
    | Raise e => Raise e
    end.

Notation "x <- m ;; k" := (bind m (fun x => k))
  (at level 61, m at next level, right associativity).

Module PyRandom.

(** [_randbelow(n)]: a number below [n], taken from the next draw. *)
Definition randbelow (n : nat) : M nat :=
  fun g => Ok (g 0 mod n, fun k => g (S k)).

(** [random.choice(seq)] *)
Definition choice {A} (seq : list A) : M A :=
  match seq with
  | [] => raise IndexError
  | _ :: _ =>
      j <- randbelow (length seq) ;;
      lift (PyList.getitem seq j)
  end.

(** [x[i], x[j] = x[j], x[i]] *)
Definition swap {A} (x : list A) (i j : nat) : Exc (list A) :=
  xj <-? PyList.getitem x j ;;
  xi <-? PyList.getitem x i ;;
  x1 <-? PyList.setitem x i xj ;;
  PyList.setitem x1 j xi.

(** The loop of [random.shuffle]:
    [for i in reversed(range(1, len(x))): j = randbelow(i + 1); swap]. *)
Fixpoint shuffle_from {A} (i : nat) (x : list A) : M (list A) :=
  match i with
  | 0 => ret x
  | S i' =>
      j <- randbelow (S i) ;;
      x' <- lift (swap x i j) ;;
      shuffle_from i' x'
  end.

(** [random.shuffle(x)], returning the shuffled list. *)
Definition shuffle {A} (x : list A) : M (list A) :=
  shuffle_from (length x - 1) x.

(** The selection loop of [random.sample] on a pool whose first [n]
    entries are not selected yet:
    [j = randbelow(n - i); result[i] = pool[j]; pool[j] = pool[n - i - 1]]. *)
Fixpoint sample_pool {A} (pool : list A) (n k : nat) : M (list A) :=
  match k with
  | 0 => ret []
  | S k' =>
      j <- randbelow n ;;
      r <- lift (PyList.getitem pool j) ;;
      moved <- lift (PyList.getitem pool (n - 1)) ;;
      pool' <- lift (PyList.setitem pool j moved) ;;
      rest <- sample_pool pool' (n - 1) k' ;;
      ret (r :: rest)
  end.

(** The draws the model follows in one rejection loop. *)
Definition rejection_limit : nat := 64.

(** [j = randbelow(n); while j in selected: j = randbelow(n)].  The loop
    has no bound in Python; the model follows it for [tries] draws and
    then stops with [NoReturn], so that a result it gives is the one of
    the loop. *)
Fixpoint draw_unselected (tries n : nat) (selected : list nat) : M nat :=
  match tries with
  | 0 => raise NoReturn
  | S tries' =>
      j <- randbelow n ;;
      if existsb (Nat.eqb j) selected then draw_unselected tries' n selected
      else ret j
  end.

(** The selection loop of [random.sample] with the set of selected
    positions: [selected_add(j); result[i] = population[j]]. *)
Fixpoint sample_set {A} (population : list A) (n k : nat) (selected : list nat)
  : M (list A) :=
  match k with
  | 0 => ret []
  | S k' =>
      j <- draw_unselected rejection_limit n selected ;;
      r <- lift (PyList.getitem population j) ;;
      rest <- sample_set population n k' (j :: selected) ;;
      ret (r :: rest)
  end.

(** [setsize]: 21, and for [k > 5] also [4 ** ceil(log(k * 3, 4))], the
    least power of 4 that is at least [3 * k]. *)
Definition setsize (k : nat) : nat :=
  21 + (if 5 <? k then 4 ^ ((Nat.log2_up (k * 3) + 1) / 2) else 0).

(** [random.sample(population, k)]: the pool for a population of at most
    [setsize] entries, the set of selected positions above. *)
Definition sample {A} (population : list A) (k : nat) : M (list A) :=
  let n := length population in
  if n <? k then raise ValueError
  else if n <=? setsize k then sample_pool population n k
  else sample_set population n k [].

End PyRandom.

(** ** The class [ContentGenerator] *)

Module ContentGenerator.

Definition essay_starters : list str :=
  [ lit "Analyze and discuss";
    lit "Compare and contrast";
    lit "Evaluate the significance of";
    lit "Explain the relationship between";
    lit "Critically examine";
    lit "Describe the impact of";
    lit "What are the main factors that contribute to";
    lit "How does";
    lit "Why is it important to understand" ].

Definition mc_starters : list str :=
  [ lit "What is";
    lit "Which of the following";
    lit "What best describes";
    lit "According to the text, what";
    lit "Which statement is true about";
    lit "What can be inferred about";
    lit "The main idea of";
    lit "What is the primary purpose of" ].

Definition distractor_words : list str :=
  [ lit "not"; lit "never"; lit "always"; lit "only"; lit "except";
    lit "opposite"; lit "contrary"; lit "unrelated"; lit "irrelevant";
    lit "incorrect"; lit "false" ].

(** The blank marker. *)
Definition blank : str := lit "______".

(** [clean_text] *)
Definition clean_text (text : str) : str :=
  PyRe.sub_spaces false (PyStr.strip PyChar.isspace text).

(** *** [extract_key_concepts] *)

Definition concept_stoplist : list str :=
  [lit "the"; lit "this"; lit "that"; lit "they"; lit "there"].

(** The body of [for word in words], on the pair of [concepts] and
    [word_freq]. *)
Definition scan_word (st : list str * PyDict.dict) (word : str)
  : Exc (list str * PyDict.dict) :=
  let '(concepts, word_freq) := st in
  if 3 <? length word then
    let word_lower := PyStr.lower word in
    let word_freq :=
      PyDict.set word_freq word_lower (PyDict.get word_freq word_lower 0 + 1) in
    first <-? PyList.getitem word 0 ;;
    if PyChar.isupper first
       && negb (PyList.mem (PyStr.lower word) concept_stoplist)
    then Ok (concepts ++ [word], word_freq)
    else Ok (concepts, word_freq)
  else Ok st.

(** The body of [for sentence in sentences]. *)
Definition scan_sentence (st : list str * PyDict.dict) (sentence : str)
  : Exc (list str * PyDict.dict) :=
  foldE scan_word st (PyRe.findall_words sentence).

Definition frequent_words (word_freq : PyDict.dict) : list str :=
  map fst
      (filter (fun kv => (1 <? snd kv) && (4 <? length (fst kv)))
              (PyDict.items word_freq)).

Definition extract_key_concepts (rank : str -> nat) (text : str)
  : Exc (list str) :=
  let sentences := PyRe.split_sentences text in
  st <-? foldE scan_sentence ([], []) sentences ;;
  let '(concepts, word_freq) := st in
  let concepts := concepts ++ firstn 5 (frequent_words word_freq) in
  Ok (firstn 10 (PyList.list_of_set rank concepts)).

(** *** [generate_assignments] *)

Definition assignment1_template (starter concept : str) : str :=
  starter ++ lit " " ++ PyStr.lower concept
  ++ lit " as discussed in the provided material. Support your analysis with specific examples and explain its broader implications.".

Definition assignment1_fallback : str :=
  lit "Analyze the main themes presented in the provided text and discuss their significance with supporting examples.".

Definition assignment2_template (concept1 concept2 : str) : str :=
  lit "Compare and contrast " ++ PyStr.lower concept1 ++ lit " and "
  ++ PyStr.lower concept2
  ++ lit ". Discuss how these concepts relate to each other and their importance in the overall context.".

Definition assignment2_fallback : str :=
  lit "Evaluate the effectiveness of the arguments presented in the text. What evidence supports the main points, and what questions remain unanswered?".

Definition generate_assignments (text : str) (concepts : list str)
  : M (list str) :=
  assignment1 <-
    (if negb (is_empty concepts) then
       main_concept <- PyRandom.choice concepts ;;
       starter <- PyRandom.choice essay_starters ;;
       ret (assignment1_template starter main_concept)
     else ret assignment1_fallback) ;;
  assignment2 <-
    (if 2 <=? length concepts then
       picked <- PyRandom.sample concepts 2 ;;
       match picked with
       | [concept1; concept2] => ret (assignment2_template concept1 concept2)
       | _ => raise ValueError
       end
     else ret assignment2_fallback) ;;
  ret [assignment1; assignment2].

(** *** Quiz questions *)

Record QuizQuestion : Type := mkQuestion {
  question : str;
  options : list str;
  correct_answer : str;
  correct_text : str
}.

Definition QuizQuestion_eq_dec (a b : QuizQuestion) : {a = b} + {a <> b}.
Proof.
  decide equality; try apply str_eq_dec; apply (list_eq_dec str_eq_dec).
Defined.

(** [q in questions] *)
Definition question_in (q : QuizQuestion) (questions : list QuizQuestion)
  : bool :=
  existsb (fun q' => if QuizQuestion_eq_dec q q' then true else false)
          questions.

(** [generate_distractors] *)
Definition generic_distractors (correct_answer : str) : list str :=
  [ lit "Not " ++ PyStr.lower correct_answer;
    lit "Opposite of " ++ PyStr.lower correct_answer;
    lit "None of the above" ].

Definition other_concepts (correct_answer : str) (concepts : list str)
  : list str :=
  filter (fun c => negb (str_eqb (PyStr.lower c) (PyStr.lower correct_answer)))
         concepts.

Definition generate_distractors (correct_answer : str) (concepts : list str)
  : list str :=
  let distractors := firstn 2 (other_concepts correct_answer concepts) in
  let distractors := distractors ++ generic_distractors correct_answer in
  firstn 3 distractors.

Definition connectives : list str :=
  [lit "through"; lit "because"; lit "however"; lit "therefore"; lit "although"].

Definition answer_candidates (words : list str) : list str :=
  filter (fun word =>
            (4 <? length word)
            && negb (PyList.mem (PyStr.lower word) connectives))
         words.

Definition punctuation : ascii -> bool := PyChar.one_of (lit ".,!?").

Definition alternative_question (starter sentence : str) : str :=
  starter ++ lit " mentioned in the following context: '"
  ++ PyStr.slice_to 50 sentence ++ lit "...'?".

(** [create_multiple_choice_question]; [None] is Python's [None]. *)
Definition create_multiple_choice_question
  (sentence : str) (concepts : list str) : M (option QuizQuestion) :=
  let sentence := PyStr.strip PyChar.isspace sentence in
  if is_empty sentence then ret None
  else
    let words := PyStr.split sentence in
    let candidates := answer_candidates words in
    if is_empty candidates then ret None
    else
      chosen <- PyRandom.choice candidates ;;
      let correct := PyStr.strip punctuation chosen in
      let question_text := PyStr.replace sentence correct blank in
      question_text <-
        (if negb (PyStr.contains blank question_text) then
           starter <- PyRandom.choice mc_starters ;;
           ret (alternative_question starter sentence)
         else ret question_text) ;;
      let distractors := generate_distractors correct concepts in
      options <- PyRandom.shuffle (correct :: distractors) ;;
      correct_index <- lift (PyList.index options correct) ;;
      correct_letter <- lift (PyList.chr (65 + correct_index)) ;;
      ret (Some {| question := question_text;
                   options := options;
                   correct_answer := correct_letter;
                   correct_text := correct |}).

Definition generic_concept_options : list str :=
  [ lit "It is a central theme";
    lit "It is mentioned briefly";
    lit "It is not relevant";
    lit "It contradicts the main argument" ].

Definition generic_plain_options : list str :=
  [ lit "The content presents a clear argument";
    lit "The content lacks supporting evidence";
    lit "The content is purely descriptive";
    lit "The content is contradictory" ].

(** [create_generic_question] *)
Definition create_generic_question (concepts : list str) (index : nat)
  : M QuizQuestion :=
  qo <-
    (if negb (is_empty concepts) then
       concept <- PyRandom.choice concepts ;;
       ret (lit "What is the significance of " ++ PyStr.lower concept
            ++ lit " in the provided material?",
            generic_concept_options)
     else
       ret (lit "Based on the provided material, which statement is most accurate?",
            generic_plain_options)) ;;
  let '(question_text, options) := qo in
  first <- lift (PyList.getitem options 0) ;;
  ret {| question := question_text;
         options := options;
         correct_answer := lit "A";
         correct_text := first |}.

(** The sentence pool of [generate_quiz_questions]. *)
Definition sentence_pool (text : str) : list str :=
  map (PyStr.strip PyChar.isspace)
      (filter (fun s => 20 <? length (PyStr.strip PyChar.isspace s))
              (PyRe.split_sentences text)).

(** One pass through the body of the first [while] loop, before
    [attempts += 1]. *)
Definition attempt (sentences concepts : list str)
  (questions : list QuizQuestion) : M (list QuizQuestion) :=
  if negb (is_empty sentences) then
    sentence <- PyRandom.choice sentences ;;
    made <- create_multiple_choice_question sentence concepts ;;
    match made with
    | Some q =>
        if negb (question_in q questions) then ret (questions ++ [q])
        else ret questions
    | None => ret questions
    end
  else ret questions.

(** [while len(questions) < 3 and attempts < max_attempts]; the result
    carries the final value of [attempts]. *)
Equations? sentence_loop (sentences concepts : list str)
  (questions : list QuizQuestion) (attempts : nat) (g : Rand)
  : Exc (list QuizQuestion * nat * Rand)
  by wf (length sentences * 2 - attempts) lt :=
sentence_loop sentences concepts questions attempts g
  with inspect ((length questions <? 3) && (attempts <? length sentences * 2)) := {
  | exist _ false _ => Ok (questions, attempts, g)
  | exist _ true Hcond with attempt sentences concepts questions g := {
    | Raise e => Raise e
    | Ok (questions', g') =>
        sentence_loop sentences concepts questions' (S attempts) g' } }.
Proof.
  apply andb_prop in Hcond. destruct Hcond as [_ Hlt].
  apply Nat.ltb_lt in Hlt. lia.
Qed.

(** [while len(questions) < 3], filling with generic questions. *)
Equations? fill_loop (concepts : list str) (questions : list QuizQuestion)
  (g : Rand) : Exc (list QuizQuestion * Rand)
  by wf (3 - length questions) lt :=
fill_loop concepts questions g with inspect (length questions <? 3) := {
  | exist _ false _ => Ok (questions, g)
  | exist _ true Hcond
      with create_generic_question concepts (length questions) g := {
    | Raise e => Raise e
    | Ok (generic_q, g') => fill_loop concepts (questions ++ [generic_q]) g' } }.
Proof.
  change (3 - length (questions ++ [generic_q]) < 3 - length questions).
  apply Nat.ltb_lt in Hcond. rewrite length_app. cbn [length]. lia.
Qed.

(** [generate_quiz_questions] *)
Definition generate_quiz_questions (text : str) (concepts : list str)
  : M (list QuizQuestion) :=
  fun g =>
    let sentences := sentence_pool text in
    match sentence_loop sentences concepts [] 0 g with
    | Raise e => Raise e
    | Ok (questions, _, g') => fill_loop concepts questions g'
    end.

Record GenerationResult : Type := mkResult {
  assignments : list str;
  quiz_questions : list QuizQuestion;
  concepts_found : list str
}.

(** [generate_content] *)
Definition generate_content (rank : str -> nat) (input_text : str)
  : M GenerationResult :=
  let text := clean_text input_text in
  concepts <- lift (extract_key_concepts rank text) ;;
  assignments <- generate_assignments text concepts ;;
  quiz_questions <- generate_quiz_questions text concepts ;;
  ret {| assignments := assignments;
         quiz_questions := quiz_questions;
         concepts_found := concepts |}.

End ContentGenerator.

(** ** The strings that [main] builds from the generated content *)

(** [sep.join(parts)] *)
Fixpoint str_join (sep : str) (parts : list str) : str :=
  match parts with
  | [] => []
  | part :: rest =>
      match rest with
      | [] => part
      | _ :: _ => part ++ sep ++ str_join sep rest
      end
  end.

(** [str(n)] for an [int] that is not negative. *)
Definition str_of_nat (n : nat) : str :=
  list_ascii_of_string (NilEmpty.string_of_uint (Nat.to_uint n)).

(** The line feed. *)
Definition nl : str := [ascii_of_nat 10].

Module Main.

Definition bold_style : str := lit "font-weight: bold; color: #2ca02c;".

(** One pass of [for j, option in enumerate(question['options'])] in the
    quiz display. *)
Definition option_div (j : nat) (option correct_answer : str) : Exc str :=
  letter <-? PyList.chr (65 + j) ;;
  let style := if str_eqb letter correct_answer then bold_style else lit "" in
  Ok (lit "<div style='" ++ style ++ lit "'>" ++ letter ++ lit ". " ++ option
      ++ lit "</div>").

Fixpoint options_html_from (j : nat) (options : list str)
  (correct_answer options_html : str) : Exc str :=
  match options with
  | [] => Ok options_html
  | option :: rest =>
      div <-? option_div j option correct_answer ;;
      options_html_from (S j) rest correct_answer (options_html ++ div)
  end.

(** The value of [options_html] after the loop over the options of one
    question. *)
Definition options_html (question : ContentGenerator.QuizQuestion) : Exc str :=
  options_html_from 0 (ContentGenerator.options question)
    (ContentGenerator.correct_answer question) (lit "").

(** The option lines of the export. *)
Fixpoint export_options (j : nat) (options : list str) (export_content : str)
  : Exc str :=
  match options with
  | [] => Ok export_content
  | option :: rest =>
      letter <-? PyList.chr (65 + j) ;;
      export_options (S j) rest
        (export_content ++ letter ++ lit ". " ++ option ++ nl)
  end.

(** [for i, question in enumerate(content['quiz_questions'], 1)] of the
    export, from number [i] on. *)
Fixpoint export_questions (i : nat)
  (questions : list ContentGenerator.QuizQuestion) (export_content : str)
  : Exc str :=
  match questions with
  | [] => Ok export_content
  | question :: rest =>
      let export_content :=
        export_content ++ nl ++ lit "### Question " ++ str_of_nat i ++ lit ": "
        ++ ContentGenerator.question question ++ nl in
      export_content <-?
        export_options 0 (ContentGenerator.options question) export_content ;;
      let export_content :=
        export_content ++ lit "**Correct Answer: "
        ++ ContentGenerator.correct_answer question ++ lit "**" ++ nl in
      export_questions (S i) rest export_content
  end.

(** The value of [export_content] that the download button gets. *)
Definition export_content (content : ContentGenerator.GenerationResult)
  : Exc str :=
  assignment0 <-? PyList.getitem (ContentGenerator.assignments content) 0 ;;
  assignment1 <-? PyList.getitem (ContentGenerator.assignments content) 1 ;;
  let export_content :=
    nl ++ lit "# Educational Content Generated" ++ nl ++ nl
    ++ lit "## Assignment Questions:" ++ nl
    ++ lit "1. " ++ assignment0 ++ nl ++ nl
    ++ lit "2. " ++ assignment1 ++ nl ++ nl
    ++ lit "## Quiz Questions:" ++ nl in
  export_content <-?
    export_questions 1 (ContentGenerator.quiz_questions content) export_content ;;
  Ok (export_content ++ nl ++ lit "## Key Concepts:" ++ nl
      ++ str_join (lit ", ") (ContentGenerator.concepts_found content) ++ nl).

End Main.

(** ** Vocabulary of the specification *)

(** [sub] occurs in [s] as a contiguous substring. *)
Definition occurs_in (sub s : str) : Prop :=
  exists before after, s = before ++ sub ++ after.

(** Whitespace of a normalised text: single spaces only, none after
    another; [in_run] tells that the character before [s] was whitespace. *)
Fixpoint tidy (in_run : bool) (s : str) : bool :=
  match s with
  | [] => true
  | c :: s' =>
      if PyChar.isspace c
      then negb in_run && Ascii.eqb c " "%char && tidy true s'
      else tidy false s'
  end.

(** The position an answer letter names: A=0, B=1, C=2, D=3. *)
Definition letter_index (letter : str) : option nat :=
  if str_eqb letter (lit "A") then Some 0
  else if str_eqb letter (lit "B") then Some 1
  else if str_eqb letter (lit "C") then Some 2
  else if str_eqb letter (lit "D") then Some 3
  else None.

(** The invariant of a quiz question. *)
Definition well_formed (q : ContentGenerator.QuizQuestion) : Prop :=
  length (ContentGenerator.options q) = 4
  /\ exists i,
       letter_index (ContentGenerator.correct_answer q) = Some i
       /\ nth_error (ContentGenerator.options q) i
          = Some (ContentGenerator.correct_text q).

(** A question of the generic fallback: answer letter A bound to the
    first fixed option, about one of the concepts when there is any. *)
Definition is_generic (concepts : list str) (q : ContentGenerator.QuizQuestion)
  : Prop :=
  ContentGenerator.correct_answer q = lit "A"
  /\ ((concepts = []
       /\ ContentGenerator.question q
          = lit "Based on the provided material, which statement is most accurate?"
       /\ ContentGenerator.options q = ContentGenerator.generic_plain_options
       /\ ContentGenerator.correct_text q
          = lit "The content presents a clear argument")
      \/ (exists concept,
            In concept concepts
            /\ ContentGenerator.question q
               = lit "What is the significance of " ++ PyStr.lower concept
                 ++ lit " in the provided material?"
            /\ ContentGenerator.options q = ContentGenerator.generic_concept_options
            /\ ContentGenerator.correct_text q = lit "It is a central theme")).

(** The result of the fallback paths alone. *)
Definition fallback_question : ContentGenerator.QuizQuestion :=
  {| ContentGenerator.question :=
       lit "Based on the provided material, which statement is most accurate?";
     ContentGenerator.options := ContentGenerator.generic_plain_options;
     ContentGenerator.correct_answer := lit "A";
     ContentGenerator.correct_text := lit "The content presents a clear argument" |}.

Definition fallback_result : ContentGenerator.GenerationResult :=
  {| ContentGenerator.assignments :=
       [ContentGenerator.assignment1_fallback;
        ContentGenerator.assignment2_fallback];
     ContentGenerator.quiz_questions :=
       [fallback_question; fallback_question; fallback_question];
     ContentGenerator.concepts_found := [] |}.


(** The concepts gathered while scanning are longer than 3 characters. *)
Definition long_concepts (st : list str * PyDict.dict) : Prop :=
  Forall (fun c => 3 < length c) (fst st).

(** The rank that lists a set in the order of [l]: the place of each
    element in [l]. *)
Fixpoint position (x : str) (l : list str) : nat :=
  match l with
  | [] => 0
  | y :: l' => if str_eq_dec y x then 0 else S (position x l')
  end.

Definition by_rank (rank : str -> nat) (a b : str) : Prop := rank a <= rank b.

(** [q] is what [create_multiple_choice_question] returns on one of the
    sentences, for some state of the random source. *)
Definition built_from (sentences concepts : list str)
  (q : ContentGenerator.QuizQuestion) : Prop :=
  exists sentence g0 g1,
    In sentence sentences
    /\ ContentGenerator.create_multiple_choice_question sentence concepts g0
       = Ok (Some q, g1).

(** No character of [s] satisfies [p]. *)
Definition free_of (p : ascii -> bool) (s : str) : Prop :=
  Forall (fun c => p c = false) s.

(** The words [extract_key_concepts] scans, in scanning order. *)
Definition text_words (text : str) : list str :=
  flat_map PyRe.findall_words (PyRe.split_sentences text).

(** The test a word passes to be appended to [concepts]. *)
Definition capital_pick (word : str) : bool :=
  (3 <? length word)
  && match word with
     | first :: _ => PyChar.isupper first
     | [] => false
     end
  && negb (PyList.mem (PyStr.lower word) ContentGenerator.concept_stoplist).

(** How many of the words, among those longer than 3 characters, have
    the lowercase form [key]. *)
Definition mentions (key : str) (words : list str) : nat :=
  length (filter (fun w => (3 <? length w) && str_eqb (PyStr.lower w) key) words).

(** The state of the scan after the words [seen]. *)
Definition scanned (seen : list str) (st : list str * PyDict.dict) : Prop :=
  fst st = filter capital_pick seen
  /\ NoDup (map fst (snd st))
  /\ forall key, PyDict.get (snd st) key 0 = mentions key seen.

(** Scanning [s] ends on a separator; [prev] tells it of the character
    before [s]. *)
Fixpoint ends_on_sep (sep : ascii -> bool) (prev : bool) (s : str) : bool :=
  match s with
  | [] => prev
  | c :: s' => ends_on_sep sep (sep c) s'
  end.

(** The last character of [s] is no separator. *)
Fixpoint ends_clean (sep : ascii -> bool) (s : str) : Prop :=
  match s with
  | [] => False
  | c :: s' =>
      match s' with
      | [] => sep c = false
      | _ :: _ => ends_clean sep s'
      end
  end.

(** The letter of position [j]: A for 0, B for 1, ... *)
Definition answer_letter (j : nat) : str := [ascii_of_nat (65 + j)].

Definition styled_div (style letter option : str) : str :=
  lit "<div style='" ++ style ++ lit "'>" ++ letter ++ lit ". " ++ option
  ++ lit "</div>".

(** The option lines of the display with the line of position [i], and
    no other, in bold. *)
Definition highlighted_html (i : nat) (options : list str) : str :=
  concat
    (map (fun jo =>
            styled_div (if fst jo =? i then Main.bold_style else lit "")
                       (answer_letter (fst jo)) (snd jo))
         (combine (seq 0 (length options)) options)).

(** The line of the export that names the answer letter. *)
Definition answer_line (q : ContentGenerator.QuizQuestion) : str :=
  lit "**Correct Answer: " ++ ContentGenerator.correct_answer q ++ lit "**".

(** * Properties *)

Import ContentGenerator.

(** ** The model of the Python library on examples *)

Example split_ex :
  PyStr.split (lit "  It's  crucial, really. ")
  = [lit "It's"; lit "crucial,"; lit "really."].
Proof. reflexivity. Qed.

Example split_sentences_ex :
  PyRe.split_sentences (lit "a.b?!c.") = [lit "a"; lit "b"; lit "c"; lit ""].
Proof. reflexivity. Qed.

Example findall_words_ex :
  PyRe.findall_words (lit "AI2 is (Deep) learn_ing, it's")
  = [lit "is"; lit "Deep"; lit "it"; lit "s"].
Proof. reflexivity. Qed.

Example replace_ex :
  PyStr.replace (lit "aaa b aa") (lit "aa") (lit "_") = lit "_a b _"
  /\ PyStr.replace (lit "ab") (lit "") (lit "-") = lit "-a-b-"
  /\ PyStr.replace_first (lit "aaa b aa") (lit "aa") (lit "_") = lit "_a b aa".
Proof. repeat split; reflexivity. Qed.

Example clean_text_ex :
  clean_text (lit "  Deep   learning  uses layers. ")
  = lit "Deep learning uses layers.".
Proof. reflexivity. Qed.

Example extract_key_concepts_ex :
  extract_key_concepts (fun c => length c)
    (lit "Plants need energy. Plants store energy in the Chloroplast.")
  = Ok [lit "Plants"; lit "plants"; lit "energy"; lit "Chloroplast"].
Proof. reflexivity. Qed.

(** ** Stripping *)

Section Strip.

Variable p : ascii -> bool.

Lemma lstrip_all (s : str) : forallb p s = true -> PyStr.lstrip p s = [].
Proof.
  induction s as [|c s IH]; simpl; [reflexivity|].
  intros H. apply andb_prop in H. destruct H as [Hc Hs].
  rewrite Hc. auto.
Qed.

Lemma lstrip_head (s : str) c t : PyStr.lstrip p s = c :: t -> p c = false.
Proof.
  induction s as [|x s IH]; simpl; [discriminate|].
  destruct (p x) eqn:Hx; [exact IH|].
  intros E. injection E as -> _. exact Hx.
Qed.

Lemma lstrip_suffix (s : str) : exists a, s = a ++ PyStr.lstrip p s.
Proof.
  induction s as [|x s [a IH]]; simpl.
  - exists []. reflexivity.
  - destruct (p x).
    + exists (x :: a). simpl. f_equal. exact IH.
    + exists []. reflexivity.
Qed.

Lemma rstrip_prefix (s : str) : exists b, s = PyStr.rstrip p s ++ b.
Proof.
  unfold PyStr.rstrip. destruct (lstrip_suffix (rev s)) as [a Ha].
  exists (rev a). rewrite <- rev_app_distr, <- Ha. symmetry. apply rev_involutive.
Qed.

Lemma rstrip_last (s : str) t c : PyStr.rstrip p s = t ++ [c] -> p c = false.
Proof.
  unfold PyStr.rstrip. intros E.
  apply (f_equal (@rev ascii)) in E.
  rewrite rev_involutive, rev_app_distr in E. simpl in E.
  exact (lstrip_head _ _ _ E).
Qed.

Lemma strip_head (s : str) c t : PyStr.strip p s = c :: t -> p c = false.
Proof.
  unfold PyStr.strip. intros E.
  destruct (rstrip_prefix (PyStr.lstrip p s)) as [b Hb].
  rewrite E in Hb. simpl in Hb.
  exact (lstrip_head s c (t ++ b) Hb).
Qed.

Lemma strip_last (s : str) t c : PyStr.strip p s = t ++ [c] -> p c = false.
Proof. unfold PyStr.strip. apply rstrip_last. Qed.

Lemma strip_occurs (s : str) : occurs_in (PyStr.strip p s) s.
Proof.
  unfold PyStr.strip.
  destruct (lstrip_suffix s) as [a Ha].
  destruct (rstrip_prefix (PyStr.lstrip p s)) as [b Hb].
  exists a, b. rewrite <- Hb. exact Ha.
Qed.

Lemma strip_fixed (s : str) :
  (forall c t, s = c :: t -> p c = false) ->
  (forall t c, s = t ++ [c] -> p c = false) ->
  PyStr.strip p s = s.
Proof.
  intros Hhead Hlast. unfold PyStr.strip, PyStr.rstrip.
  assert (Hl : PyStr.lstrip p s = s).
  { destruct s as [|c t]; [reflexivity|]. simpl.
    rewrite (Hhead c t eq_refl). reflexivity. }
  rewrite Hl.
  assert (Hr : PyStr.lstrip p (rev s) = rev s).
  { destruct (rev s) as [|c t] eqn:E; [reflexivity|]. simpl.
    assert (Hs : s = rev t ++ [c]).
    { rewrite <- (rev_involutive s), E. reflexivity. }
    rewrite (Hlast _ _ Hs). reflexivity. }
  rewrite Hr. apply rev_involutive.
Qed.

Lemma strip_all (s : str) : forallb p s = true -> PyStr.strip p s = [].
Proof.
  intros H. unfold PyStr.strip. rewrite (lstrip_all _ H). reflexivity.
Qed.

End Strip.

(** ** The normaliser *)

Lemma sub_spaces_tidy (s : str) b : tidy b (PyRe.sub_spaces b s) = true.
Proof.
  revert b. induction s as [|c s IH]; intros b; simpl; [reflexivity|].
  destruct (PyChar.isspace c) eqn:Hc.
  - destruct b; [apply IH|]. simpl. apply IH.
  - simpl. rewrite Hc. apply IH.
Qed.

Lemma tidy_sub_spaces (s : str) b : tidy b s = true -> PyRe.sub_spaces b s = s.
Proof.
  revert b. induction s as [|c s IH]; intros b; simpl; [reflexivity|].
  destruct (PyChar.isspace c) eqn:Hc.
  - intros H. apply andb_prop in H. destruct H as [H Ht].
    apply andb_prop in H. destruct H as [Hb Heq].
    destruct b; [discriminate|].
    apply Ascii.eqb_eq in Heq. subst c. f_equal. apply IH, Ht.
  - intros H. f_equal. apply IH, H.
Qed.

Lemma tidy_no_adjacent (s : str) b a c1 c2 rest :
  tidy b s = true -> s = a ++ c1 :: c2 :: rest ->
  PyChar.isspace c1 && PyChar.isspace c2 = false.
Proof.
  revert s b. induction a as [|x a IH]; intros s b Ht ->; simpl in Ht.
  - destruct (PyChar.isspace c1); [|reflexivity].
    apply andb_prop in Ht. destruct Ht as [_ Ht]. simpl in Ht.
    destruct (PyChar.isspace c2); [discriminate|reflexivity].
  - destruct (PyChar.isspace x).
    + apply andb_prop in Ht. destruct Ht as [_ Ht]. exact (IH _ _ Ht eq_refl).
    + exact (IH _ _ Ht eq_refl).
Qed.

Lemma sub_spaces_snoc (t : str) c b :
  PyChar.isspace c = false ->
  PyRe.sub_spaces b (t ++ [c]) = PyRe.sub_spaces b t ++ [c].
Proof.
  intros Hc. revert b. induction t as [|x t IH]; intros b; simpl.
  - rewrite Hc. reflexivity.
  - destruct (PyChar.isspace x); [destruct b|]; simpl; rewrite IH; reflexivity.
Qed.

Lemma clean_text_head (text : str) c t :
  clean_text text = c :: t -> PyChar.isspace c = false.
Proof.
  unfold clean_text.
  destruct (PyStr.strip PyChar.isspace text) as [|x u] eqn:E; simpl; [discriminate|].
  rewrite (strip_head _ _ _ _ E). intros H. injection H as <- _.
  exact (strip_head _ _ _ _ E).
Qed.

Lemma clean_text_last (text : str) t c :
  clean_text text = t ++ [c] -> PyChar.isspace c = false.
Proof.
  unfold clean_text.
  destruct (PyStr.strip PyChar.isspace text) as [|y v] eqn:E0.
  - simpl. destruct t; discriminate.
  - destruct (@exists_last _ (y :: v)) as [u [x E]]; [discriminate|].
    rewrite E in *.
    assert (Hx := strip_last _ _ _ _ E0). rewrite (sub_spaces_snoc _ _ _ Hx).
    intros H. apply app_inj_tail in H. destruct H as [_ <-]. exact Hx.
Qed.

(** C7.  For every input, the output of [clean_text] has no two adjacent
    whitespace characters, starts and ends with no whitespace character,
    and is left unchanged by [clean_text]; so is every string whose
    whitespace is single spaces between other characters. *)
Theorem clean_text_normal_and_idempotent (text : str) :
  (forall a c1 c2 b,
      clean_text text = a ++ c1 :: c2 :: b ->
      PyChar.isspace c1 && PyChar.isspace c2 = false)
  /\ (forall c t, clean_text text = c :: t -> PyChar.isspace c = false)
  /\ (forall t c, clean_text text = t ++ [c] -> PyChar.isspace c = false)
  /\ clean_text (clean_text text) = clean_text text
  /\ (tidy false text = true ->
      (forall c t, text = c :: t -> PyChar.isspace c = false) ->
      (forall t c, text = t ++ [c] -> PyChar.isspace c = false) ->
      clean_text text = text).
Proof.
  assert (Ht : tidy false (clean_text text) = true) by apply sub_spaces_tidy.
  split; [|split; [|split; [|split]]].
  - intros a c1 c2 b E. exact (tidy_no_adjacent _ _ _ _ _ _ Ht E).
  - apply clean_text_head.
  - apply clean_text_last.
  - unfold clean_text at 1.
    rewrite strip_fixed.
    + apply tidy_sub_spaces, Ht.
    + apply clean_text_head.
    + apply clean_text_last.
  - intros Htidy Hhead Hlast. unfold clean_text.
    rewrite (strip_fixed _ _ Hhead Hlast). apply tidy_sub_spaces, Htidy.
Qed.

(** ** Substrings, splitting and replacement *)

Lemma occurs_in_trans (a b c : str) :
  occurs_in a b -> occurs_in b c -> occurs_in a c.
Proof.
  intros [x1 [y1 ->]] [x2 [y2 ->]].
  exists (x2 ++ x1), (y1 ++ y2). now rewrite <- !app_assoc.
Qed.

Lemma split_runs_head sep (s : str) seg rest :
  PyStr.split_runs sep false s = seg :: rest -> exists b, s = seg ++ b.
Proof.
  revert seg rest. induction s as [|c s IH]; intros seg rest; simpl.
  - intros E. injection E as <- _. exists []. reflexivity.
  - destruct (sep c).
    + intros E. injection E as <- _. exists (c :: s). reflexivity.
    + destruct (PyStr.split_runs sep false s) as [|seg0 rest0].
      * intros E. injection E as <- _.
        destruct s; simpl in IH.
        -- exists []. reflexivity.
        -- exists (a :: s). reflexivity.
      * intros E. injection E as <- _.
        destruct (IH seg0 rest0 eq_refl) as [b ->].
        exists b. reflexivity.
Qed.

Lemma split_runs_occurs sep (s : str) prev seg :
  In seg (PyStr.split_runs sep prev s) -> occurs_in seg s.
Proof.
  revert prev seg. induction s as [|c s IH]; intros prev seg; simpl.
  - intros [<-|[]]. exists [], []. reflexivity.
  - assert (Hshift : occurs_in seg s -> occurs_in seg (c :: s)).
    { intros [a [b ->]]. exists (c :: a), b. reflexivity. }
    destruct (sep c).
    + destruct prev.
      * intros H. apply Hshift. exact (IH _ _ H).
      * intros [<-|H].
        -- exists [], (c :: s). reflexivity.
        -- apply Hshift. exact (IH _ _ H).
    + destruct (PyStr.split_runs sep false s) as [|seg0 rest0] eqn:E.
      * intros [<-|[]]. exists [], s. reflexivity.
      * intros [<-|H].
        -- destruct (split_runs_head _ _ _ _ E) as [b ->].
           exists [], b. reflexivity.
        -- apply Hshift. apply (IH false). rewrite E. right. exact H.
Qed.

Lemma split_occurs (s w : str) : In w (PyStr.split s) -> occurs_in w s.
Proof.
  unfold PyStr.split. intros H. apply filter_In in H.
  destruct H as [H _]. exact (split_runs_occurs _ _ _ _ H).
Qed.

Lemma startswith_app (sub rest : str) : PyStr.startswith (sub ++ rest) sub = true.
Proof.
  induction sub as [|c sub IH]; simpl; [reflexivity|].
  now rewrite Ascii.eqb_refl.
Qed.

Lemma contains_prefix (sub rest : str) : PyStr.contains sub (sub ++ rest) = true.
Proof.
  destruct (sub ++ rest) eqn:E; simpl; rewrite <- E, startswith_app; reflexivity.
Qed.

Lemma contains_skip (sub before s : str) :
  PyStr.contains sub s = true -> PyStr.contains sub (before ++ s) = true.
Proof.
  intros H. induction before as [|c before IH]; simpl; [exact H|].
  rewrite IH. apply orb_true_r.
Qed.

Lemma contains_occurs (sub s : str) : occurs_in sub s -> PyStr.contains sub s = true.
Proof.
  intros [a [b ->]]. apply contains_skip, contains_prefix.
Qed.

Lemma replace_scan_marks (old new before after : str) :
  old <> [] ->
  PyStr.contains new (PyStr.replace_scan old new 0 (before ++ old ++ after)) = true.
Proof.
  intros Hold. induction before as [|c before IH].
  - destruct old as [|o old]; [contradiction|].
    change ([] ++ (o :: old) ++ after) with (o :: (old ++ after)).
    cbn [PyStr.replace_scan].
    change (o :: old ++ after) with ((o :: old) ++ after).
    rewrite startswith_app. apply contains_prefix.
  - change ((c :: before) ++ old ++ after) with (c :: (before ++ old ++ after)).
    cbn [PyStr.replace_scan].
    destruct (PyStr.startswith (c :: before ++ old ++ after) old).
    + apply contains_prefix.
    + apply (contains_skip new [c]). exact IH.
Qed.

(** Replacing a string that occurs in [s] leaves the replacement in the
    result; the empty string occurs before the first character. *)
Lemma replace_marks (s old new : str) :
  occurs_in old s -> PyStr.contains new (PyStr.replace s old new) = true.
Proof.
  intros [before [after ->]]. unfold PyStr.replace.
  destruct old as [|o old].
  - apply contains_prefix.
  - apply replace_scan_marks. discriminate.
Qed.

(** ** The monad and the [random] module *)

Lemma bind_ok {A B} (m : M A) (k : A -> M B) g a g1 :
  m g = Ok (a, g1) -> bind m k g = k a g1.
Proof. intros H. unfold bind. rewrite H. reflexivity. Qed.

Lemma lift_ok {A} (x : Exc A) a g : x = Ok a -> lift x g = Ok (a, g).
Proof. intros ->. reflexivity. Qed.

Lemma getitem_ok {A} (l : list A) i :
  i < length l -> exists x, PyList.getitem l i = Ok x /\ nth_error l i = Some x.
Proof.
  intros H. unfold PyList.getitem.
  destruct (nth_error l i) as [x|] eqn:E.
  - exists x. split; reflexivity.
  - apply nth_error_None in E. lia.
Qed.

Lemma setitem_ok {A} (l : list A) i v :
  i < length l ->
  exists l', PyList.setitem l i v = Ok l'
             /\ length l' = length l
             /\ nth_error l' i = Some v
             /\ forall k, k <> i -> nth_error l' k = nth_error l k.
Proof.
  revert i. induction l as [|h t IH]; intros i Hi; simpl in Hi; [lia|].
  destruct i as [|i]; simpl.
  - exists (v :: t). repeat split. intros [|k] Hk; [congruence|reflexivity].
  - destruct (IH i) as [t' [E [Hlen [Hnth Hother]]]]; [lia|].
    rewrite E. simpl. exists (h :: t'). repeat split.
    + simpl. now rewrite Hlen.
    + exact Hnth.
    + intros [|k] Hk; [reflexivity|]. simpl. apply Hother. congruence.
Qed.

Lemma randbelow_ok n g :
  0 < n ->
  exists j, j < n /\ PyRandom.randbelow n g = Ok (j, fun k => g (S k)).
Proof.
  intros Hn. exists (g 0 mod n). split; [|reflexivity].
  apply Nat.mod_upper_bound. lia.
Qed.

Lemma choice_ok {A} (seq : list A) g :
  seq <> [] ->
  exists j x, PyRandom.choice seq g = Ok (x, fun k => g (S k))
              /\ nth_error seq j = Some x.
Proof.
  intros Hne. destruct seq as [|a seq]; [contradiction|].
  unfold PyRandom.choice.
  destruct (randbelow_ok (length (a :: seq)) g) as [j [Hj Hr]]; [simpl; lia|].
  destruct (getitem_ok (a :: seq) j Hj) as [x [Hx Hnth]].
  exists j, x. split; [|exact Hnth].
  rewrite (bind_ok _ _ _ _ _ Hr). exact (lift_ok _ _ _ Hx).
Qed.

Lemma swap_ok {A} (x : list A) i j :
  i < length x -> j < length x ->
  exists x', PyRandom.swap x i j = Ok x'
             /\ length x' = length x
             /\ forall a, In a x -> In a x'.
Proof.
  intros Hi Hj. unfold PyRandom.swap.
  destruct (getitem_ok x j Hj) as [xj [Ej Nj]].
  destruct (getitem_ok x i Hi) as [xi [Ei Ni]].
  destruct (setitem_ok x i xj Hi) as [x1 [E1 [L1 [N1 O1]]]].
  assert (Hj1 : j < length x1) by lia.
  destruct (setitem_ok x1 j xi Hj1) as [x2 [E2 [L2 [N2 O2]]]].
  rewrite Ej, Ei. simpl. rewrite E1. simpl. rewrite E2.
  exists x2. repeat split; [lia|].
  intros a Ha. apply In_nth_error in Ha. destruct Ha as [k Hk].
  destruct (Nat.eq_dec k i) as [->|Hki].
  - assert (a = xi) by congruence. subst a.
    exact (nth_error_In _ _ N2).
  - destruct (Nat.eq_dec k j) as [->|Hkj].
    + assert (a = xj) by congruence. subst a.
      apply (nth_error_In x2 i). rewrite O2 by congruence. exact N1.
    + apply (nth_error_In x2 k). rewrite O2, O1 by assumption. exact Hk.
Qed.

Lemma shuffle_from_ok {A} i (x : list A) g :
  i < length x \/ i = 0 ->
  exists x' g', PyRandom.shuffle_from i x g = Ok (x', g')
                /\ length x' = length x
                /\ forall a, In a x -> In a x'.
Proof.
  revert x g. induction i as [|i IH]; intros x g Hi; cbn [PyRandom.shuffle_from].
  - exists x, g. repeat split. auto.
  - destruct Hi as [Hi|Hi]; [|discriminate].
    destruct (randbelow_ok (S (S i)) g) as [j [Hj Hr]]; [lia|].
    destruct (swap_ok x (S i) j) as [x1 [E1 [L1 I1]]]; [lia|lia|].
    destruct (IH x1 (fun k => g (S k))) as [x2 [g2 [E2 [L2 I2]]]]; [lia|].
    exists x2, g2. split; [|split; [lia|auto]].
    rewrite (bind_ok _ _ _ _ _ Hr), (bind_ok _ _ _ _ _ (lift_ok _ _ _ E1)). exact E2.
Qed.

Lemma shuffle_ok {A} (x : list A) g :
  exists x' g', PyRandom.shuffle x g = Ok (x', g')
                /\ length x' = length x
                /\ forall a, In a x -> In a x'.
Proof.
  unfold PyRandom.shuffle. apply shuffle_from_ok.
  destruct x; simpl; [right; reflexivity|left; lia].
Qed.

Lemma index_ok (l : list str) (x : str) :
  In x l ->
  exists i, PyList.index l x = Ok i /\ i < length l /\ nth_error l i = Some x.
Proof.
  induction l as [|y l IH]; simpl; [contradiction|].
  intros H. destruct (str_eq_dec y x) as [->|Hyx].
  - exists 0. repeat split. lia.
  - destruct H as [H|H]; [contradiction|].
    destruct (IH H) as [i [E [Hi Hn]]]. rewrite E. simpl.
    exists (S i). repeat split; [lia|exact Hn].
Qed.

(** Two draws without replacement come from two different positions. *)
Lemma sample_two_ok {A} (population : list A) g :
  2 <= length population ->
  length population <= 21 ->
  exists i j x y g',
    PyRandom.sample population 2 g = Ok ([x; y], g')
    /\ i <> j
    /\ nth_error population i = Some x
    /\ nth_error population j = Some y.
Proof.
  intros Hlen Hsmall. unfold PyRandom.sample. cbv zeta.
  destruct (length population <? 2) eqn:Hlt; [apply Nat.ltb_lt in Hlt; lia|].
  destruct (Nat.leb_spec (length population) (PyRandom.setsize 2)) as [_|Hbig];
    [|change (PyRandom.setsize 2) with 21 in Hbig; lia].
  set (n := length population) in *. cbn [PyRandom.sample_pool].
  destruct (randbelow_ok n g) as [j1 [Hj1 Hr1]]; [lia|].
  destruct (getitem_ok population j1 Hj1) as [r1 [Er1 Nr1]].
  destruct (getitem_ok population (n - 1)) as [m1 [Em1 Nm1]]; [lia|].
  destruct (setitem_ok population j1 m1 Hj1) as [pool1 [Es1 [L1 [N1 O1]]]].
  set (g1 := fun k => g (S k)) in *.
  destruct (randbelow_ok (n - 1) g1) as [j2 [Hj2 Hr2]]; [lia|].
  destruct (getitem_ok pool1 j2) as [r2 [Er2 Nr2]]; [lia|].
  destruct (getitem_ok pool1 (n - 1 - 1)) as [m2 [Em2 Nm2]]; [lia|].
  destruct (setitem_ok pool1 j2 m2) as [pool2 [Es2 _]]; [lia|].
  set (g2 := fun k => g1 (S k)) in *.
  exists j1, (if Nat.eq_dec j2 j1 then n - 1 else j2), r1, r2, g2.
  split; [|split; [|split]].
  - rewrite (bind_ok _ _ _ _ _ Hr1), (bind_ok _ _ _ _ _ (lift_ok _ _ _ Er1)),
      (bind_ok _ _ _ _ _ (lift_ok _ _ _ Em1)), (bind_ok _ _ _ _ _ (lift_ok _ _ _ Es1)).
    erewrite bind_ok; [reflexivity|].
    rewrite (bind_ok _ _ _ _ _ Hr2), (bind_ok _ _ _ _ _ (lift_ok _ _ _ Er2)),
      (bind_ok _ _ _ _ _ (lift_ok _ _ _ Em2)), (bind_ok _ _ _ _ _ (lift_ok _ _ _ Es2)).
    reflexivity.
  - destruct (Nat.eq_dec j2 j1); lia.
  - exact Nr1.
  - destruct (Nat.eq_dec j2 j1) as [->|Hne].
    + rewrite N1 in Nr2. injection Nr2 as <-. exact Nm1.
    + rewrite <- (O1 j2 Hne). exact Nr2.
Qed.

Lemma bind_inv {A B} (m : M A) (k : A -> M B) g b g2 :
  bind m k g = Ok (b, g2) ->
  exists a g1, m g = Ok (a, g1) /\ k a g1 = Ok (b, g2).
Proof.
  unfold bind. destruct (m g) as [[a g1]|e]; [|discriminate].
  intros H. exists a, g1. split; [reflexivity|exact H].
Qed.

Lemma lift_inv {A} (x : Exc A) a g g' :
  lift x g = Ok (a, g') -> x = Ok a /\ g' = g.
Proof.
  unfold lift. destruct x; [|discriminate].
  intros H. injection H as -> ->. split; reflexivity.
Qed.

Lemma getitem_inv {A} (l : list A) i x :
  PyList.getitem l i = Ok x -> nth_error l i = Some x.
Proof.
  unfold PyList.getitem. destruct (nth_error l i); [|discriminate].
  intros H. injection H as ->. reflexivity.
Qed.

(** A position that the rejection loop returns is below [n] and not
    selected before. *)
Lemma draw_unselected_sound tries n (selected : list nat) g j g' :
  0 < n ->
  PyRandom.draw_unselected tries n selected g = Ok (j, g') ->
  j < n /\ ~ In j selected.
Proof.
  intros Hn. revert g. induction tries as [|tries IH]; intros g;
    cbn [PyRandom.draw_unselected]; [discriminate|].
  intros H. apply bind_inv in H. destruct H as [j0 [g1 [Hr H]]].
  destruct (randbelow_ok n g Hn) as [j1 [Hj1 Hr1]].
  rewrite Hr1 in Hr. injection Hr as <- <-.
  destruct (existsb (Nat.eqb j1) selected) eqn:Hsel.
  - exact (IH _ H).
  - injection H as <- _. split; [exact Hj1|].
    intros Hin. assert (Ht : existsb (Nat.eqb j1) selected = true).
    { apply existsb_exists. exists j1. split; [exact Hin|apply Nat.eqb_refl]. }
    congruence.
Qed.

(** Two entries that [random.sample] returns come from two different
    positions, with the pool as with the set of selected positions. *)
Lemma sample_two_sound {A} (population : list A) g picked g' :
  2 <= length population ->
  PyRandom.sample population 2 g = Ok (picked, g') ->
  exists i j x y,
    picked = [x; y]
    /\ i <> j
    /\ nth_error population i = Some x
    /\ nth_error population j = Some y.
Proof.
  intros Hlen Hrun.
  destruct (Nat.le_gt_cases (length population) 21) as [Hsmall|Hbig].
  - destruct (sample_two_ok population g Hlen Hsmall)
      as [i [j [x [y [g2 [E [Hij [Hi Hj]]]]]]]].
    rewrite E in Hrun. injection Hrun as <- _.
    exists i, j, x, y. repeat split; assumption.
  - unfold PyRandom.sample in Hrun. cbv zeta in Hrun.
    destruct (length population <? 2) eqn:Hlt;
      [apply Nat.ltb_lt in Hlt; lia|].
    destruct (Nat.leb_spec (length population) (PyRandom.setsize 2)) as [Hle|_];
      [change (PyRandom.setsize 2) with 21 in Hle; lia|].
    cbn [PyRandom.sample_set] in Hrun.
    apply bind_inv in Hrun. destruct Hrun as [j1 [g1 [Hd1 Hrun]]].
    apply bind_inv in Hrun. destruct Hrun as [x [g1' [Hx Hrun]]].
    apply lift_inv in Hx. destruct Hx as [Hx ->].
    apply bind_inv in Hrun. destruct Hrun as [rest [g2 [Hrest Hrun]]].
    injection Hrun as <- _.
    apply bind_inv in Hrest. destruct Hrest as [j2 [g3 [Hd2 Hrest]]].
    apply bind_inv in Hrest. destruct Hrest as [y [g3' [Hy Hrest]]].
    apply lift_inv in Hy. destruct Hy as [Hy ->].
    apply bind_inv in Hrest. destruct Hrest as [nothing [g4 [Hnil Hrest]]].
    injection Hnil as <- _. injection Hrest as <- _.
    assert (Hn : 0 < length population) by lia.
    destruct (draw_unselected_sound _ _ _ _ _ _ Hn Hd2) as [_ Hnew].
    exists j1, j2, x, y. split; [reflexivity|]. split.
    + intros E. apply Hnew. left. exact E.
    + split; apply getitem_inv; assumption.
Qed.

(** ** Distractors *)

Lemma other_concepts_In (correct : str) (concepts : list str) c :
  In c (other_concepts correct concepts)
  <-> In c concepts /\ PyStr.lower c <> PyStr.lower correct.
Proof.
  unfold other_concepts. rewrite filter_In. unfold str_eqb.
  destruct (str_eq_dec (PyStr.lower c) (PyStr.lower correct)); simpl;
    intuition congruence.
Qed.

Lemma generate_distractors_split (correct : str) (concepts : list str) :
  let others := other_concepts correct concepts in
  let k := Nat.min 2 (length others) in
  generate_distractors correct concepts
  = firstn k others ++ firstn (3 - k) (generic_distractors correct).
Proof.
  intros others k. unfold generate_distractors. fold others.
  assert (Hk : length (firstn 2 others) = k) by apply length_firstn.
  assert (Hf : firstn 2 others = firstn k others).
  { unfold k. destruct (Nat.le_ge_cases 2 (length others)) as [H|H].
    - now rewrite Nat.min_l.
    - rewrite Nat.min_r by exact H. rewrite firstn_all. now apply firstn_all2. }
  rewrite firstn_app, Hk, <- Hf. f_equal.
  apply firstn_all2. rewrite Hk. unfold k. lia.
Qed.

Lemma generate_distractors_length (correct : str) (concepts : list str) :
  length (generate_distractors correct concepts) = 3.
Proof.
  unfold generate_distractors.
  rewrite length_firstn, length_app, length_firstn.
  unfold generic_distractors. cbn [length]. lia.
Qed.

(** C5.  [generate_distractors] returns exactly 3 strings: the first
    [min 2 n] of the [n] concepts whose lowercase form differs from that of
    the answer, in concept order, then generic entries for the rest; for
    "Elephant" and [Elephant, Savanna, Migration] these are "Savanna",
    "Migration" and one generic entry. *)
Theorem generate_distractors_three (correct : str) (concepts : list str) :
  let others := other_concepts correct concepts in
  let k := Nat.min 2 (length others) in
  length (generate_distractors correct concepts) = 3
  /\ generate_distractors correct concepts
     = firstn k others ++ firstn (3 - k) (generic_distractors correct)
  /\ others
     = filter (fun c => if str_eq_dec (PyStr.lower c) (PyStr.lower correct)
                        then false else true) concepts
  /\ (forall c, In c others
                <-> In c concepts /\ PyStr.lower c <> PyStr.lower correct)
  /\ generate_distractors (lit "Elephant")
       [lit "Elephant"; lit "Savanna"; lit "Migration"]
     = [lit "Savanna"; lit "Migration"; lit "Not elephant"].
Proof.
  intros others k. split; [apply generate_distractors_length|].
  split; [apply generate_distractors_split|].
  split; [|split; [apply other_concepts_In|reflexivity]].
  unfold others, other_concepts, str_eqb. apply filter_ext.
  intros c. now destruct (str_eq_dec _ _).
Qed.

(** ** Building one question *)

Lemma letter_index_chr i :
  i < 4 ->
  exists letter, PyList.chr (65 + i) = Ok letter /\ letter_index letter = Some i.
Proof.
  intros Hi.
  destruct i as [|[|[|[|i]]]]; [| | | |lia];
    eexists; (split; [reflexivity|reflexivity]).
Qed.

(** What [create_multiple_choice_question] returns: nothing when the
    trimmed sentence is empty or has no candidate; otherwise a question
    on one candidate, stripped of punctuation. *)
Lemma create_question_spec (sentence : str) (concepts : list str) g :
  let s := PyStr.strip PyChar.isspace sentence in
  let candidates := answer_candidates (PyStr.split s) in
  ((s = [] \/ candidates = [])
   /\ create_multiple_choice_question sentence concepts g = Ok (None, g))
  \/ (s <> [] /\ candidates <> []
      /\ exists chosen q g',
          create_multiple_choice_question sentence concepts g = Ok (Some q, g')
          /\ In chosen candidates
          /\ correct_text q = PyStr.strip punctuation chosen
          /\ occurs_in (correct_text q) s
          /\ question q = PyStr.replace s (correct_text q) blank
          /\ PyStr.contains blank (question q) = true
          /\ well_formed q
          /\ (forall d, In d (generate_distractors (correct_text q) concepts)
                        -> In d (options q))).
Proof.
  intros s candidates. unfold create_multiple_choice_question.
  change (PyStr.strip PyChar.isspace sentence) with s.
  change (answer_candidates (PyStr.split s)) with candidates.
  assert (Hcand : forall w, In w candidates -> occurs_in w s).
  { intros w Hw. apply split_occurs. unfold candidates, answer_candidates in Hw.
    apply filter_In in Hw. apply Hw. }
  clearbody candidates. clearbody s.
  destruct s as [|s0 s']; [left; split; [left|]; reflexivity|].
  destruct candidates as [|c0 cs]; [left; split; [right|]; reflexivity|].
  right. split; [discriminate|]. split; [discriminate|].
  cbn [is_empty].
  set (s := s0 :: s') in *. set (candidates := c0 :: cs) in *.
  destruct (choice_ok candidates g) as [j [chosen [Hch Hnth]]];
    [discriminate|].
  assert (Hin : In chosen candidates) by exact (nth_error_In _ _ Hnth).
  set (correct := PyStr.strip punctuation chosen).
  assert (Hocc : occurs_in correct s).
  { apply occurs_in_trans with chosen; [apply strip_occurs|]. apply Hcand, Hin. }
  assert (Hmark : PyStr.contains blank (PyStr.replace s correct blank) = true)
    by exact (replace_marks _ _ _ Hocc).
  set (g1 := fun k => g (S k)) in *.
  destruct (shuffle_ok (correct :: generate_distractors correct concepts) g1)
    as [opts [g2 [Hsh [Hlen Hperm]]]].
  destruct (index_ok opts correct) as [i [Hidx [Hi Hopt]]];
    [apply Hperm; left; reflexivity|].
  simpl in Hlen. rewrite generate_distractors_length in Hlen.
  destruct (letter_index_chr i) as [letter [Hchr Hletter]]; [lia|].
  exists chosen.
  exists {| question := PyStr.replace s correct blank; options := opts;
            correct_answer := letter; correct_text := correct |}.
  exists g2. cbn [question options correct_answer correct_text].
  split.
  { rewrite (bind_ok _ _ _ _ _ Hch). fold correct. rewrite Hmark. cbn [negb].
    unfold ret at 1. unfold bind at 1.
    rewrite (bind_ok _ _ _ _ _ Hsh), (bind_ok _ _ _ _ _ (lift_ok _ _ _ Hidx)),
      (bind_ok _ _ _ _ _ (lift_ok _ _ _ Hchr)).
    reflexivity. }
  repeat split; try assumption; try reflexivity.
  - exists i. split; assumption.
  - intros d Hd. apply Hperm. right. exact Hd.
Qed.

Lemma create_generic_question_spec (concepts : list str) index g :
  exists q g',
    create_generic_question concepts index g = Ok (q, g')
    /\ is_generic concepts q
    /\ well_formed q
    /\ (concepts = [] -> g' = g).
Proof.
  unfold create_generic_question.
  destruct concepts as [|c0 cs]; cbn [is_empty negb].
  - eexists. exists g. split; [reflexivity|].
    split; [|split; [|reflexivity]].
    + split; [reflexivity|]. left. repeat split.
    + split; [reflexivity|]. exists 0. split; reflexivity.
  - destruct (choice_ok (c0 :: cs) g) as [j [concept [Hch Hnth]]];
      [discriminate|].
    eexists. eexists. split.
    { rewrite (bind_ok _ _ _ _ _ (bind_ok _ _ _ _ _ Hch)). reflexivity. }
    split; [|split; [|discriminate]].
    + split; [reflexivity|]. right. exists concept.
      split; [exact (nth_error_In _ _ Hnth)|]. repeat split.
    + split; [reflexivity|]. exists 0. split; reflexivity.
Qed.

(** One pass of the sentence loop keeps the accepted questions and adds at
    most one, built from a sentence of the pool. *)
Lemma attempt_spec (sentences concepts : list str) questions g :
  exists questions' g',
    attempt sentences concepts questions g = Ok (questions', g')
    /\ (questions' = questions
        \/ exists sentence q g0 g1,
             In sentence sentences
             /\ create_multiple_choice_question sentence concepts g0
                = Ok (Some q, g1)
             /\ well_formed q
             /\ question_in q questions = false
             /\ questions' = questions ++ [q]).
Proof.
  unfold attempt. destruct sentences as [|s0 ss]; cbn [is_empty negb].
  - exists questions, g. split; [reflexivity|left; reflexivity].
  - destruct (choice_ok (s0 :: ss) g) as [j [sentence [Hch Hnth]]];
      [discriminate|].
    set (g0 := fun k => g (S k)) in *.
    rewrite (bind_ok _ _ _ _ _ Hch).
    destruct (create_question_spec sentence concepts g0)
      as [[_ Hnone]|[_ [_ [chosen [q [g1 [Hq [_ [_ [_ [_ [_ [Hwf _]]]]]]]]]]]]].
    + rewrite (bind_ok _ _ _ _ _ Hnone).
      exists questions, g0. split; [reflexivity|left; reflexivity].
    + rewrite (bind_ok _ _ _ _ _ Hq).
      destruct (question_in q questions) eqn:Hdup; cbn [negb].
      * exists questions, g1. split; [reflexivity|left; reflexivity].
      * exists (questions ++ [q]), g1. split; [reflexivity|].
        right. exists sentence, q, g0, g1.
        split; [exact (nth_error_In _ _ Hnth)|].
        split; [exact Hq|]. split; [exact Hwf|]. split; [exact Hdup|reflexivity].
Qed.

(** ** The two loops of [generate_quiz_questions] *)

Lemma sentence_loop_spec (sentences concepts : list str) questions attempts g :
  length questions <= 3 ->
  Forall well_formed questions ->
  exists qs final g',
    sentence_loop sentences concepts questions attempts g = Ok (qs, final, g')
    /\ length qs <= 3
    /\ Forall well_formed qs
    /\ attempts <= final
    /\ final <= Nat.max attempts (length sentences * 2)
    /\ (length qs < 3 -> length sentences * 2 <= final).
Proof.
  funelim (sentence_loop sentences concepts questions attempts g);
    intros Hlen Hwf.
  - match goal with
    | Hc : _ && _ = false |- _ =>
        pose proof (proj1 (andb_false_iff _ _) Hc) as Hexit;
        rewrite !Nat.ltb_ge in Hexit
    end.
    exists questions, attempts, g.
    repeat split; try assumption; try lia.
  - match goal with
    | Hc : _ && _ = true |- _ =>
        destruct (andb_prop _ _ Hc) as [Hq Ha]; rewrite Nat.ltb_lt in Hq, Ha
    end.
    destruct (attempt_spec sentences concepts questions g)
      as [qs1 [g1 [Hat Hcases]]].
    match goal with
    | Heq : attempt _ _ _ _ = Ok _ |- _ =>
        rewrite Hat in Heq; injection Heq as <- <-
    end.
    match goal with
    | IH : _ -> _ -> exists _ _ _, _ |- _ =>
        destruct IH as [qs [final [g2 [Hrun [Hl [Hw [Hle [Hmax Hexit]]]]]]]]
    end.
    + destruct Hcases as [->|[s [q [ga [gb [_ [_ [_ [_ ->]]]]]]]]];
        [lia|rewrite length_app; simpl; lia].
    + destruct Hcases as [->|[s [q [ga [gb [_ [_ [Hq1 [_ ->]]]]]]]]];
        [assumption|].
      apply Forall_app. split; [assumption|]. constructor; [exact Hq1|constructor].
    + exists qs, final, g2. repeat split; try assumption; lia.
  - destruct (attempt_spec sentences concepts questions g)
      as [qs1 [g1 [Hat _]]].
    match goal with
    | Heq : attempt _ _ _ _ = Raise _ |- _ => rewrite Hat in Heq; discriminate
    end.
Qed.

(** Filling up: generic questions are added until there are three. *)
Lemma fill_loop_spec (concepts : list str) questions g :
  length questions <= 3 ->
  exists generics g',
    fill_loop concepts questions g = Ok (questions ++ generics, g')
    /\ length (questions ++ generics) = 3
    /\ Forall (is_generic concepts) generics
    /\ Forall well_formed generics
    /\ (concepts = [] -> g' = g).
Proof.
  funelim (fill_loop concepts questions g); intros Hlen.
  - match goal with
    | Hc : (_ <? _) = false |- _ => pose proof (proj1 (Nat.ltb_ge _ _) Hc) as Hge
    end.
    exists [], g. rewrite app_nil_r. repeat split; try constructor. lia.
  - match goal with
    | Hc : (_ <? _) = true |- _ => pose proof (proj1 (Nat.ltb_lt _ _) Hc) as Hlt
    end.
    destruct (create_generic_question_spec concepts (length questions) g)
      as [q [g1 [Hq [Hgen [Hwf Hg]]]]].
    match goal with
    | Heq : create_generic_question _ _ _ = Ok _ |- _ =>
        rewrite Hq in Heq; injection Heq as <- <-
    end.
    match goal with
    | IH : _ -> exists _ _, _ |- _ =>
        destruct IH as [generics [g2 [Hrun [Hl [Hgs [Hws Hg2]]]]]];
          [rewrite length_app; simpl; lia|]
    end.
    exists (q :: generics), g2.
    rewrite <- app_assoc in Hrun, Hl. simpl in Hrun, Hl.
    repeat split; try assumption; try (constructor; assumption).
    intros Hc. rewrite (Hg2 Hc). exact (Hg Hc).
  - destruct (create_generic_question_spec concepts (length questions) g)
      as [q [g1 [Hq _]]].
    match goal with
    | Heq : create_generic_question _ _ _ = Raise _ |- _ =>
        rewrite Hq in Heq; discriminate
    end.
Qed.

(** ** The whole pipeline on blank input *)

Lemma clean_text_blank (input : str) :
  forallb PyChar.isspace input = true -> clean_text input = [].
Proof.
  intros H. unfold clean_text. rewrite (strip_all _ _ H). reflexivity.
Qed.

(** C2.  On the empty string [generate_content] raises nothing and returns
    the two fixed fallback assignments, three generic fallback questions
    with answer letter A, and no concept; it does the same on every input
    made of whitespace only. *)
Theorem generate_content_blank (rank : str -> nat) (g : Rand) :
  generate_content rank [] g = Ok (fallback_result, g)
  /\ Forall (fun q => correct_answer q = lit "A") (quiz_questions fallback_result)
  /\ length (quiz_questions fallback_result) = 3
  /\ (forall input,
        forallb PyChar.isspace input = true ->
        generate_content rank input g = Ok (fallback_result, g)).
Proof.
  assert (H0 : generate_content rank [] g = Ok (fallback_result, g)) by reflexivity.
  split; [exact H0|]. split; [repeat constructor|]. split; [reflexivity|].
  intros input Hws. unfold generate_content.
  rewrite (clean_text_blank _ Hws). exact H0.
Qed.

(** ** The quiz synthesiser *)

Lemma sentence_pool_empty (text : str) :
  sentence_pool text = []
  <-> forall s, In s (PyRe.split_sentences text) ->
                length (PyStr.strip PyChar.isspace s) <= 20.
Proof.
  unfold sentence_pool. split.
  - intros H s Hs.
    destruct (Nat.le_gt_cases (length (PyStr.strip PyChar.isspace s)) 20)
      as [Hle|Hgt]; [exact Hle|].
    apply map_eq_nil in H.
    assert (Hin : In s (filter
                          (fun s => 20 <? length (PyStr.strip PyChar.isspace s))
                          (PyRe.split_sentences text))).
    { apply filter_In. split; [exact Hs|]. now apply Nat.ltb_lt. }
    rewrite H in Hin. contradiction.
  - intros H.
    replace (filter (fun s => 20 <? length (PyStr.strip PyChar.isspace s))
                    (PyRe.split_sentences text)) with (@nil str); [reflexivity|].
    symmetry. induction (PyRe.split_sentences text) as [|s l IH]; [reflexivity|].
    simpl. destruct (Nat.ltb_spec 20 (length (PyStr.strip PyChar.isspace s)))
      as [Hlt|Hge].
    + specialize (H s (or_introl eq_refl)). lia.
    + apply IH. intros s' Hs'. apply H. right. exact Hs'.
Qed.

Lemma generate_quiz_questions_spec (text : str) (concepts : list str) g :
  exists accepted attempts g1 generics g2,
    sentence_loop (sentence_pool text) concepts [] 0 g
    = Ok (accepted, attempts, g1)
    /\ attempts <= 2 * length (sentence_pool text)
    /\ fill_loop concepts accepted g1 = Ok (accepted ++ generics, g2)
    /\ generate_quiz_questions text concepts g = Ok (accepted ++ generics, g2)
    /\ length (accepted ++ generics) = 3
    /\ Forall well_formed (accepted ++ generics)
    /\ Forall (is_generic concepts) generics.
Proof.
  destruct (sentence_loop_spec (sentence_pool text) concepts [] 0 g)
    as [accepted [attempts [g1 [Hrun [Hlen [Hwf [_ [Hmax _]]]]]]]];
    [simpl; lia|constructor|].
  destruct (fill_loop_spec concepts accepted g1 Hlen)
    as [generics [g2 [Hfill [Hthree [Hgen [Hgwf _]]]]]].
  exists accepted, attempts, g1, generics, g2.
  split; [exact Hrun|]. split; [lia|]. split; [exact Hfill|].
  split; [unfold generate_quiz_questions; rewrite Hrun; exact Hfill|].
  split; [exact Hthree|]. split; [|exact Hgen].
  apply Forall_app. split; assumption.
Qed.

(** C1.  Every question of the quiz synthesiser, built from a sentence or
    by the generic fallback, has exactly 4 options, an answer letter among
    A, B, C, D, and at the position the letter names (A=0, ..., D=3) the
    option equal to [correct_text]. *)
Theorem quiz_questions_well_formed :
  (forall sentence concepts g,
      exists made g',
        create_multiple_choice_question sentence concepts g = Ok (made, g')
        /\ forall q, made = Some q -> well_formed q)
  /\ (forall concepts index g,
        exists q g',
          create_generic_question concepts index g = Ok (q, g')
          /\ well_formed q)
  /\ (forall text concepts g,
        exists questions g',
          generate_quiz_questions text concepts g = Ok (questions, g')
          /\ Forall well_formed questions).
Proof.
  split; [|split].
  - intros sentence concepts g.
    destruct (create_question_spec sentence concepts g)
      as [[_ Hnone]|[_ [_ [chosen [q [g' [Hq [_ [_ [_ [_ [_ [Hwf _]]]]]]]]]]]]].
    + exists None, g. split; [exact Hnone|]. discriminate.
    + exists (Some q), g'. split; [exact Hq|].
      intros q' E. injection E as <-. exact Hwf.
  - intros concepts index g.
    destruct (create_generic_question_spec concepts index g)
      as [q [g' [Hq [_ [Hwf _]]]]].
    exists q, g'. split; assumption.
  - intros text concepts g.
    destruct (generate_quiz_questions_spec text concepts g)
      as [accepted [attempts [g1 [generics [g2 [_ [_ [_ [Hrun [_ [Hwf _]]]]]]]]]]].
    exists (accepted ++ generics), g2. split; assumption.
Qed.

(** C4.  [generate_quiz_questions] returns for every input, with exactly 3
    questions: the sentence loop ends after at most 2 * pool size attempts,
    none when the pool is empty (no trimmed segment longer than 20
    characters), and generic fallback questions fill the list up to 3. *)
Theorem generate_quiz_questions_three (text : str) (concepts : list str) g :
  let pool := sentence_pool text in
  exists accepted attempts g1 generics g2,
    sentence_loop pool concepts [] 0 g = Ok (accepted, attempts, g1)
    /\ attempts <= 2 * length pool
    /\ (pool = [] -> attempts = 0)
    /\ (pool = []
        <-> forall s, In s (PyRe.split_sentences text) ->
                      length (PyStr.strip PyChar.isspace s) <= 20)
    /\ fill_loop concepts accepted g1 = Ok (accepted ++ generics, g2)
    /\ Forall (is_generic concepts) generics
    /\ generate_quiz_questions text concepts g = Ok (accepted ++ generics, g2)
    /\ length (accepted ++ generics) = 3.
Proof.
  intros pool.
  destruct (generate_quiz_questions_spec text concepts g)
    as [accepted [attempts [g1 [generics [g2
         [Hloop [Hbound [Hfill [Hrun [Hthree [_ Hgen]]]]]]]]]]].
  exists accepted, attempts, g1, generics, g2. fold pool in Hloop, Hbound.
  split; [exact Hloop|]. split; [exact Hbound|].
  split; [intros E; rewrite E in Hbound; simpl in Hbound; lia|].
  split; [apply sentence_pool_empty|].
  repeat split; assumption.
Qed.

(** ** The question text *)

(** C9.  For every sentence, each answer candidate stripped of its
    '.,!?' characters occurs in the trimmed sentence (the empty string
    occurs anywhere), so the replacement leaves the blank marker in the
    question text: the test that guards the templated alternative is never
    true, and every question built from a sentence contains the marker. *)
Theorem alternative_question_unreachable (sentence : str) :
  let s := PyStr.strip PyChar.isspace sentence in
  (forall chosen,
      In chosen (answer_candidates (PyStr.split s)) ->
      let correct := PyStr.strip punctuation chosen in
      occurs_in correct s
      /\ negb (PyStr.contains blank (PyStr.replace s correct blank)) = false)
  /\ (forall concepts g,
        exists made g',
          create_multiple_choice_question sentence concepts g = Ok (made, g')
          /\ (made = None <-> s = [] \/ answer_candidates (PyStr.split s) = [])
          /\ forall q,
               made = Some q ->
               question q = PyStr.replace s (correct_text q) blank
               /\ PyStr.contains blank (question q) = true).
Proof.
  intros s. split.
  - intros chosen Hin correct.
    assert (Hocc : occurs_in correct s).
    { apply occurs_in_trans with chosen; [apply strip_occurs|].
      apply split_occurs. unfold answer_candidates in Hin.
      apply filter_In in Hin. apply Hin. }
    split; [exact Hocc|]. now rewrite (replace_marks _ _ _ Hocc).
  - intros concepts g.
    destruct (create_question_spec sentence concepts g)
      as [[Hempty Hnone]
         |[Hs [Hc [chosen [q [g' [Hq [_ [_ [_ [Hrep [Hmark _]]]]]]]]]]]].
    + exists None, g. split; [exact Hnone|]. split; [tauto|discriminate].
    + exists (Some q), g'. split; [exact Hq|]. split.
      * split; [discriminate|]. intros [E|E]; contradiction.
      * intros q' E. injection E as <-. split; assumption.
Qed.

(** C10.  The length filter sees the raw tokens, the answer is what is
    left after stripping '.,!?': a sentence whose only long token is made
    of such characters yields a question with an empty [correct_text],
    alone or as the text given to the synthesiser, and "word," yields one
    of 4 characters. *)
Theorem correct_text_may_be_empty :
  (forall concepts g,
      exists q g',
        create_multiple_choice_question (lit ",,,,,") concepts g = Ok (Some q, g')
        /\ correct_text q = [])
  /\ (forall concepts g,
        exists q g',
          create_multiple_choice_question (lit "word,") concepts g
          = Ok (Some q, g')
          /\ correct_text q = lit "word")
  /\ (exists q rest g',
        generate_quiz_questions (lit "a b c d e f g h ,,,,, i j k") []
          (fun _ => 0)
        = Ok (q :: rest, g')
        /\ correct_text q = []
        /\ In [] (options q)).
Proof.
  split; [|split].
  - intros concepts g.
    destruct (create_question_spec (lit ",,,,,") concepts g)
      as [[[E|E] _]|[_ [_ [chosen [q [g' [Hq [Hin [Hct _]]]]]]]]];
      [discriminate E|discriminate E|].
    exists q, g'. split; [exact Hq|].
    destruct Hin as [<-|[]]. exact Hct.
  - intros concepts g.
    destruct (create_question_spec (lit "word,") concepts g)
      as [[[E|E] _]|[_ [_ [chosen [q [g' [Hq [Hin [Hct _]]]]]]]]];
      [discriminate E|discriminate E|].
    exists q, g'. split; [exact Hq|].
    destruct Hin as [<-|[]]. exact Hct.
  - eexists. eexists. eexists. split; [vm_compute; reflexivity|].
    split; [reflexivity|]. simpl. tauto.
Qed.








(** ** Concept extraction *)

Lemma insert_by_In rank (a x : str) (l : list str) :
  In x (PyList.insert_by rank a l) <-> x = a \/ In x l.
Proof.
  induction l as [|y l IH]; simpl.
  - intuition.
  - destruct (rank a <=? rank y); simpl; [intuition|].
    rewrite IH. intuition.
Qed.

Lemma insert_by_NoDup rank (a : str) (l : list str) :
  ~ In a l -> NoDup l -> NoDup (PyList.insert_by rank a l).
Proof.
  induction l as [|y l IH]; simpl; intros Hnin Hnd.
  - constructor; [tauto|constructor].
  - destruct (rank a <=? rank y).
    + constructor; [simpl; tauto|exact Hnd].
    + inversion Hnd as [|? ? Hy Hl]; subst. constructor.
      * rewrite insert_by_In. intros [->|H]; tauto.
      * apply IH; tauto.
Qed.

(** [list(set(xs))] lists the elements of [xs], each once. *)
Lemma list_of_set_spec rank (xs : list str) :
  NoDup (PyList.list_of_set rank xs)
  /\ forall x, In x (PyList.list_of_set rank xs) <-> In x xs.
Proof.
  unfold PyList.list_of_set.
  assert (Hnd := NoDup_nodup str_eq_dec xs).
  assert (Hin : forall x, In x (nodup str_eq_dec xs) <-> In x xs)
    by (intros x; apply nodup_In).
  revert Hnd Hin. generalize (nodup str_eq_dec xs) as l. intros l Hnd Hin.
  assert (H : NoDup (fold_right (PyList.insert_by rank) [] l)
              /\ forall x, In x (fold_right (PyList.insert_by rank) [] l)
                           <-> In x l).
  { clear Hin. induction l as [|a l IH]; simpl.
    - split; [constructor|tauto].
    - inversion Hnd as [|? ? Ha Hl]; subst.
      destruct (IH Hl) as [IH1 IH2]. split.
      + apply insert_by_NoDup; [rewrite IH2; exact Ha|exact IH1].
      + intros x. rewrite insert_by_In, IH2. intuition. }
  destruct H as [H1 H2]. split; [exact H1|].
  intros x. rewrite H2. apply Hin.
Qed.

Lemma firstn_subset {A} n (l : list A) x : In x (firstn n l) -> In x l.
Proof.
  intros H. rewrite <- (firstn_skipn n l). apply in_or_app. left. exact H.
Qed.

Lemma foldE_invariant {A S} (P : S -> Prop) (f : S -> A -> Exc S) :
  (forall st a, P st -> exists st', f st a = Ok st' /\ P st') ->
  forall l st, P st -> exists st', foldE f st l = Ok st' /\ P st'.
Proof.
  intros Hf. induction l as [|a l IH]; intros st Hst; simpl.
  - exists st. split; [reflexivity|exact Hst].
  - destruct (Hf st a Hst) as [st1 [E1 H1]]. rewrite E1. simpl.
    apply IH, H1.
Qed.

Lemma scan_word_invariant st word :
  long_concepts st -> exists st', scan_word st word = Ok st' /\ long_concepts st'.
Proof.
  destruct st as [concepts word_freq]. unfold long_concepts, scan_word. simpl.
  intros Hst. destruct (Nat.ltb_spec 3 (length word)) as [Hlong|Hshort].
  - destruct word as [|first word]; [simpl in Hlong; lia|].
    cbn [PyList.getitem nth_error bindE].
    destruct (PyChar.isupper first && _); eexists; (split; [reflexivity|]);
      simpl; [|exact Hst].
    apply Forall_app. split; [exact Hst|]. constructor; [exact Hlong|constructor].
  - eexists. split; [reflexivity|exact Hst].
Qed.

Lemma scan_sentence_invariant st sentence :
  long_concepts st ->
  exists st', scan_sentence st sentence = Ok st' /\ long_concepts st'.
Proof.
  unfold scan_sentence. apply foldE_invariant. apply scan_word_invariant.
Qed.

Lemma frequent_words_long (word_freq : PyDict.dict) :
  Forall (fun c => 4 < length c) (frequent_words word_freq).
Proof.
  unfold frequent_words, PyDict.items. apply Forall_forall. intros w Hw.
  apply in_map_iff in Hw. destruct Hw as [[k v] [<- Hkv]].
  apply filter_In in Hkv. destruct Hkv as [_ H].
  apply andb_prop in H. destruct H as [_ H]. now apply Nat.ltb_lt in H.
Qed.

Lemma extract_key_concepts_ok (rank : str -> nat) (text : str) :
  exists concepts,
    extract_key_concepts rank text = Ok concepts
    /\ length concepts <= 10
    /\ Forall (fun c => 3 < length c) concepts
    /\ NoDup concepts.
Proof.
  unfold extract_key_concepts.
  destruct (foldE_invariant long_concepts scan_sentence
              scan_sentence_invariant (PyRe.split_sentences text) ([], []))
    as [[concepts word_freq] [E Hlong]]; [constructor|].
  rewrite E. cbn [bindE]. eexists. split; [reflexivity|].
  split; [apply firstn_le_length|]. split.
  - apply Forall_forall. intros c Hc. apply firstn_subset in Hc.
    apply (proj1 (proj2 (list_of_set_spec rank _) c)) in Hc.
    apply in_app_or in Hc.
    destruct Hc as [Hc|Hc].
    + unfold long_concepts in Hlong. simpl in Hlong.
      rewrite Forall_forall in Hlong. exact (Hlong c Hc).
    + apply firstn_subset in Hc.
      assert (H := frequent_words_long word_freq).
      rewrite Forall_forall in H. specialize (H c Hc). lia.
  - apply (NoDup_app_remove_r _ (skipn 10 (PyList.list_of_set rank
             (concepts ++ firstn 5 (frequent_words word_freq))))).
    rewrite firstn_skipn. apply list_of_set_spec.
Qed.

(** C6.  For every input [extract_key_concepts] returns at most 10
    concepts, each longer than 3 characters; on the empty input it returns
    no concept. *)
Theorem extract_key_concepts_bounded (rank : str -> nat) (text : str) :
  (exists concepts,
      extract_key_concepts rank text = Ok concepts
      /\ length concepts <= 10
      /\ Forall (fun c => 3 < length c) concepts)
  /\ extract_key_concepts rank [] = Ok [].
Proof.
  split; [|reflexivity].
  destruct (extract_key_concepts_ok rank text) as [concepts [E [Hlen [Hlong _]]]].
  exists concepts. repeat split; assumption.
Qed.

(** ** Assignments *)

Lemma assignment1_template_nonempty starter concept :
  assignment1_template starter concept <> [].
Proof.
  unfold assignment1_template. destruct starter; simpl; discriminate.
Qed.

Lemma assignment2_template_nonempty concept1 concept2 :
  assignment2_template concept1 concept2 <> [].
Proof. unfold assignment2_template. simpl. discriminate. Qed.

Lemma first_assignment_ok (concepts : list str) g :
  exists assignment1 g',
    (if negb (is_empty concepts) then
       main_concept <- PyRandom.choice concepts ;;
       starter <- PyRandom.choice essay_starters ;;
       ret (assignment1_template starter main_concept)
     else ret assignment1_fallback) g = Ok (assignment1, g')
    /\ assignment1 <> []
    /\ (concepts = [] -> assignment1 = assignment1_fallback)
    /\ (concepts <> [] ->
        exists starter concept,
          In starter essay_starters /\ In concept concepts
          /\ assignment1 = assignment1_template starter concept).
Proof.
  destruct concepts as [|c0 cs]; cbn [is_empty negb].
  - exists assignment1_fallback, g. split; [reflexivity|].
    split; [discriminate|]. split; [reflexivity|]. intros H. contradiction.
  - destruct (choice_ok (c0 :: cs) g) as [j [concept [Hc Hj]]]; [discriminate|].
    destruct (choice_ok essay_starters (fun k => g (S k)))
      as [i [starter [Hs Hi]]]; [discriminate|].
    eexists. eexists. split.
    { rewrite (bind_ok _ _ _ _ _ Hc), (bind_ok _ _ _ _ _ Hs). reflexivity. }
    split; [apply assignment1_template_nonempty|]. split; [discriminate|].
    intros _. exists starter, concept.
    split; [exact (nth_error_In _ _ Hi)|].
    split; [exact (nth_error_In _ _ Hj)|reflexivity].
Qed.

Lemma generate_assignments_ok (text : str) (concepts : list str) g :
  length concepts <= 21 ->
  exists assignment1 assignment2 g',
    generate_assignments text concepts g = Ok ([assignment1; assignment2], g').
Proof.
  intros Hsmall.
  destruct (first_assignment_ok concepts g) as [a1 [g1 [H1 _]]].
  unfold generate_assignments. rewrite (bind_ok _ _ _ _ _ H1).
  destruct (Nat.leb_spec 2 (length concepts)) as [Hge|Hlt].
  - destruct (sample_two_ok concepts g1 Hge Hsmall)
      as [i [j [c1 [c2 [g2 [Hs _]]]]]].
    exists a1, (assignment2_template c1 c2), g2.
    rewrite (bind_ok _ _ _ _ _ (bind_ok _ _ _ _ _ Hs)). reflexivity.
  - exists a1, assignment2_fallback, g1. reflexivity.
Qed.

(** What [generate_assignments] returns, when it returns. *)
Lemma generate_assignments_sound (text : str) (concepts : list str) g
  assignments g' :
  generate_assignments text concepts g = Ok (assignments, g') ->
  exists assignment1 assignment2,
    assignments = [assignment1; assignment2]
    /\ assignment1 <> []
    /\ (concepts <> [] ->
        exists starter concept,
          In starter essay_starters /\ In concept concepts
          /\ assignment1 = assignment1_template starter concept)
    /\ (length concepts < 2 -> assignment2 = assignment2_fallback)
    /\ (2 <= length concepts ->
        exists i j concept1 concept2,
          i <> j
          /\ nth_error concepts i = Some concept1
          /\ nth_error concepts j = Some concept2
          /\ assignment2 = assignment2_template concept1 concept2).
Proof.
  destruct (first_assignment_ok concepts g) as [a1 [g1 [H1 [Hne1 [_ Hnames]]]]].
  unfold generate_assignments. rewrite (bind_ok _ _ _ _ _ H1). intros Hrun.
  apply bind_inv in Hrun. destruct Hrun as [a2 [g2 [H2 Hrun]]].
  injection Hrun as <- _. exists a1, a2.
  split; [reflexivity|]. split; [exact Hne1|]. split; [exact Hnames|].
  destruct (Nat.leb_spec 2 (length concepts)) as [Hge|Hlt].
  - split; [lia|]. intros _.
    apply bind_inv in H2. destruct H2 as [picked [g3 [Hs H2]]].
    destruct (sample_two_sound concepts g1 picked g3 Hge Hs)
      as [i [j [c1 [c2 [-> [Hij [Hi Hj]]]]]]].
    injection H2 as <- _. exists i, j, c1, c2. repeat split; assumption.
  - injection H2 as <- _. split; [reflexivity|lia].
Qed.

(** C8.  For every concept list of at most 21 entries, so for every
    ConceptSet, [generate_assignments] returns; what it returns, for a list
    of any length, is exactly 2 non-empty strings, and with at least 2
    concepts the second one is the compare-and-contrast sentence on the
    lowercase forms of the concepts at two different positions of the list,
    which are different concepts when the list has no duplicate. *)
Theorem generate_assignments_two (text : str) (concepts : list str) g :
  (length concepts <= 21 ->
   exists assignment1 assignment2 g',
     generate_assignments text concepts g = Ok ([assignment1; assignment2], g'))
  /\ forall assignments g',
       generate_assignments text concepts g = Ok (assignments, g') ->
       exists assignment1 assignment2,
         assignments = [assignment1; assignment2]
         /\ assignment1 <> []
         /\ assignment2 <> []
         /\ (length concepts < 2 -> assignment2 = assignment2_fallback)
         /\ (2 <= length concepts ->
             exists i j concept1 concept2,
               i <> j
               /\ nth_error concepts i = Some concept1
               /\ nth_error concepts j = Some concept2
               /\ assignment2
                  = lit "Compare and contrast " ++ PyStr.lower concept1
                    ++ lit " and " ++ PyStr.lower concept2
                    ++ lit ". Discuss how these concepts relate to each other and their importance in the overall context."
               /\ occurs_in (PyStr.lower concept1) assignment2
               /\ occurs_in (PyStr.lower concept2) assignment2
               /\ (NoDup concepts -> concept1 <> concept2)).
Proof.
  split; [apply generate_assignments_ok|].
  intros assignments g' Hrun.
  destruct (generate_assignments_sound _ _ _ _ _ Hrun)
    as [a1 [a2 [-> [Hne1 [_ [Hshort Hlong]]]]]].
  exists a1, a2. split; [reflexivity|]. split; [exact Hne1|].
  destruct (Nat.le_gt_cases 2 (length concepts)) as [Hge|Hlt].
  - destruct (Hlong Hge) as [i [j [c1 [c2 [Hij [Hi [Hj Ha2]]]]]]].
    split; [rewrite Ha2; apply assignment2_template_nonempty|].
    split; [lia|]. intros _. exists i, j, c1, c2.
    split; [exact Hij|]. split; [exact Hi|]. split; [exact Hj|].
    split; [exact Ha2|]. rewrite Ha2. unfold assignment2_template.
    split; [|split].
    + exists (lit "Compare and contrast "). eexists. reflexivity.
    + exists (lit "Compare and contrast " ++ PyStr.lower c1 ++ lit " and ").
      eexists. rewrite <- !app_assoc. reflexivity.
    + intros Hnd E. subst c2. apply Hij.
      apply (proj1 (NoDup_nth_error concepts) Hnd).
      * apply nth_error_Some. congruence.
      * congruence.
  - rewrite (Hshort Hlt). split; [discriminate|].
    split; [reflexivity|lia].
Qed.

Lemma generate_assignments_two_witness :
  length [lit "Elephant"; lit "Savanna"; lit "Migration"] <= 21
  /\ exists assignment1 assignment2 g',
       generate_assignments (lit "")
         [lit "Elephant"; lit "Savanna"; lit "Migration"] (fun n => n)
       = Ok ([assignment1; assignment2], g').
Proof.
  assert (H : length [lit "Elephant"; lit "Savanna"; lit "Migration"] <= 21)
    by (simpl; lia).
  split; [exact H|].
  exact (proj1 (generate_assignments_two (lit "")
                  [lit "Elephant"; lit "Savanna"; lit "Migration"]
                  (fun n => n)) H).
Defined.

Example generate_assignments_ex :
  exists g',
    generate_assignments (lit "")
      [lit "Elephant"; lit "Savanna"; lit "Migration"] (fun n => n)
    = Ok ([lit "Compare and contrast elephant as discussed in the provided material. Support your analysis with specific examples and explain its broader implications.";
           lit "Compare and contrast migration and savanna. Discuss how these concepts relate to each other and their importance in the overall context."],
          g').
Proof. eexists. vm_compute. reflexivity. Qed.

(** ** Adequacy of the models of [set] and [random] *)

Lemma insert_by_sorted rank (a : str) (l : list str) :
  StronglySorted (by_rank rank) l ->
  StronglySorted (by_rank rank) (PyList.insert_by rank a l).
Proof.
  induction l as [|y l IH]; simpl; intros Hs.
  - constructor; constructor.
  - apply StronglySorted_inv in Hs. destruct Hs as [Hl Hy].
    destruct (Nat.leb_spec (rank a) (rank y)) as [Hle|Hgt].
    + constructor; [constructor; assumption|].
      constructor; [exact Hle|].
      apply Forall_forall. intros z Hz. rewrite Forall_forall in Hy.
      specialize (Hy z Hz). unfold by_rank in *. lia.
    + constructor; [apply IH, Hl|].
      apply Forall_forall. intros z Hz. apply insert_by_In in Hz.
      destruct Hz as [->|Hz]; [unfold by_rank; lia|].
      rewrite Forall_forall in Hy. exact (Hy z Hz).
Qed.

Lemma list_of_set_sorted rank (xs : list str) :
  StronglySorted (by_rank rank) (PyList.list_of_set rank xs).
Proof.
  unfold PyList.list_of_set.
  induction (nodup str_eq_dec xs) as [|a l IH]; simpl.
  - constructor.
  - apply insert_by_sorted, IH.
Qed.

Lemma sorted_listing_unique rank (l1 l2 : list str) :
  NoDup l1 -> NoDup l2 ->
  (forall x, In x l1 <-> In x l2) ->
  StronglySorted (by_rank rank) l1 ->
  StronglySorted (by_rank rank) l2 ->
  (forall x y, In x l1 -> In y l1 -> rank x = rank y -> x = y) ->
  l1 = l2.
Proof.
  revert l2. induction l1 as [|a l1 IH]; intros l2 Hn1 Hn2 Hsame Hs1 Hs2 Hinj.
  - destruct l2 as [|b l2]; [reflexivity|].
    destruct (proj2 (Hsame b) (or_introl eq_refl)).
  - destruct l2 as [|b l2]; [destruct (proj1 (Hsame a) (or_introl eq_refl))|].
    apply StronglySorted_inv in Hs1, Hs2.
    destruct Hs1 as [Hs1 Ha], Hs2 as [Hs2 Hb].
    rewrite Forall_forall in Ha, Hb.
    inversion Hn1 as [|? ? Hna Hn1']; inversion Hn2 as [|? ? Hnb Hn2']; subst.
    assert (Hab : a = b).
    { destruct (str_eq_dec a b) as [E|Hne]; [exact E|].
      assert (Hb1 : In b l1).
      { destruct (proj2 (Hsame b) (or_introl eq_refl)) as [E|H];
          [congruence|exact H]. }
      assert (Ha2 : In a l2).
      { destruct (proj1 (Hsame a) (or_introl eq_refl)) as [E|H];
          [congruence|exact H]. }
      apply Hinj; [left; reflexivity|right; exact Hb1|].
      specialize (Ha b Hb1). specialize (Hb a Ha2). unfold by_rank in *. lia. }
    subst b. f_equal. apply IH; try assumption.
    + intros x. split; intros Hx.
      * destruct (proj1 (Hsame x) (or_intror Hx)) as [E|H]; [|exact H].
        subst x. contradiction.
      * destruct (proj2 (Hsame x) (or_intror Hx)) as [E|H]; [|exact H].
        subst x. contradiction.
    + intros x y Hx Hy. apply Hinj; right; assumption.
Qed.

Lemma position_nth (l : list str) x :
  In x l -> nth_error l (position x l) = Some x.
Proof.
  induction l as [|y l IH]; simpl; [contradiction|].
  intros H. destruct (str_eq_dec y x) as [->|Hne]; [reflexivity|].
  destruct H as [H|H]; [contradiction|]. simpl. exact (IH H).
Qed.

Lemma sorted_weaken (R R' : str -> str -> Prop) (l : list str) :
  (forall x y, In x l -> In y l -> R x y -> R' x y) ->
  StronglySorted R l -> StronglySorted R' l.
Proof.
  induction l as [|a l IH]; intros Hrel Hs; [constructor|].
  apply StronglySorted_inv in Hs. destruct Hs as [Hs Ha].
  constructor.
  - apply IH; [|exact Hs]. intros x y Hx Hy. apply Hrel; right; assumption.
  - rewrite Forall_forall in *. intros z Hz.
    apply Hrel; [left; reflexivity|right; exact Hz|exact (Ha z Hz)].
Qed.

Lemma position_sorted (l : list str) :
  NoDup l -> StronglySorted (by_rank (fun x => position x l)) l.
Proof.
  induction l as [|a l IH]; intros Hnd; [constructor|].
  inversion Hnd as [|? ? Hna Hnd']; subst. constructor.
  - apply (sorted_weaken (by_rank (fun x => position x l))); [|exact (IH Hnd')].
    intros x y Hx Hy. unfold by_rank. simpl.
    destruct (str_eq_dec a x) as [->|_]; [contradiction|].
    destruct (str_eq_dec a y) as [->|_]; [contradiction|]. lia.
  - apply Forall_forall. intros z _. unfold by_rank. simpl.
    destruct (str_eq_dec a a); [lia|contradiction].
Qed.

(** Every listing of the set, each element once, is the one of some
    rank: the model leaves out no iteration order. *)
Lemma list_of_set_any_order (xs l : list str) :
  NoDup l -> (forall x, In x l <-> In x xs) ->
  PyList.list_of_set (fun x => position x l) xs = l.
Proof.
  intros Hnd Hsame.
  destruct (list_of_set_spec (fun x => position x l) xs) as [Hnd' Hin'].
  apply (sorted_listing_unique (fun x => position x l)); try assumption.
  - intros x. rewrite Hin'. symmetry. apply Hsame.
  - apply list_of_set_sorted.
  - apply position_sorted, Hnd.
  - intros x y Hx Hy E.
    apply Hin', Hsame in Hx. apply Hin', Hsame in Hy.
    assert (H1 := position_nth l x Hx). assert (H2 := position_nth l y Hy).
    rewrite E in H1. congruence.
Qed.

(** Every element of a sequence is the choice of some random source. *)
Lemma choice_any {A} (seq : list A) j x :
  nth_error seq j = Some x ->
  PyRandom.choice seq (fun _ => j) = Ok (x, fun _ => j).
Proof.
  intros H. assert (Hj : j < length seq) by (apply nth_error_Some; congruence).
  destruct seq as [|a seq]; [simpl in Hj; lia|].
  unfold PyRandom.choice, bind, PyRandom.randbelow, lift, PyList.getitem.
  rewrite (Nat.mod_small j (length (a :: seq)) Hj), H. reflexivity.
Qed.

(** ** The whole pipeline *)

(** [generate_content] returns for every input, whatever the random
    source and the order of the set: 2 assignments, 3 well-formed quiz
    questions, and at most 10 concepts without duplicate. *)
Theorem generate_content_complete (rank : str -> nat) (input_text : str) g :
  exists result g',
    generate_content rank input_text g = Ok (result, g')
    /\ length (assignments result) = 2
    /\ length (quiz_questions result) = 3
    /\ Forall well_formed (quiz_questions result)
    /\ length (concepts_found result) <= 10
    /\ NoDup (concepts_found result).
Proof.
  unfold generate_content. set (text := clean_text input_text).
  destruct (extract_key_concepts_ok rank text) as [concepts [Ec [Hlen [_ Hnd]]]].
  assert (Hsmall : length concepts <= 21) by lia.
  destruct (generate_assignments_ok text concepts g Hsmall) as [a1 [a2 [g1 Ha]]].
  destruct (generate_quiz_questions_spec text concepts g1)
    as [accepted [attempts [g2 [generics [g3 [_ [_ [_ [Hq [Hthree [Hwf _]]]]]]]]]]].
  eexists. eexists. split.
  { rewrite (bind_ok _ _ _ _ _ (lift_ok _ _ _ Ec)), (bind_ok _ _ _ _ _ Ha),
      (bind_ok _ _ _ _ _ Hq). reflexivity. }
  cbn [assignments quiz_questions concepts_found].
  repeat split; assumption.
Qed.

(** ** Shuffling is a permutation *)

Lemma swap_perm {A} (x : list A) i j :
  i < length x -> j < length x ->
  exists x', PyRandom.swap x i j = Ok x' /\ Permutation x x'.
Proof.
  intros Hi Hj. unfold PyRandom.swap.
  destruct (getitem_ok x j Hj) as [xj [Ej Nj]].
  destruct (getitem_ok x i Hi) as [xi [Ei Ni]].
  destruct (setitem_ok x i xj Hi) as [x1 [E1 [L1 [N1 O1]]]].
  assert (Hj1 : j < length x1) by lia.
  destruct (setitem_ok x1 j xi Hj1) as [x2 [E2 [L2 [N2 O2]]]].
  rewrite Ej, Ei. simpl. rewrite E1. simpl. rewrite E2.
  exists x2. split; [reflexivity|].
  apply Permutation_nth_error. split; [lia|].
  exists (fun n => if Nat.eq_dec n i then j else if Nat.eq_dec n j then i else n).
  split.
  - intros a b.
    destruct (Nat.eq_dec a i), (Nat.eq_dec a j), (Nat.eq_dec b i),
      (Nat.eq_dec b j); lia.
  - intros n. destruct (Nat.eq_dec n j) as [->|Hnj].
    + rewrite N2. destruct (Nat.eq_dec j i) as [->|_]; symmetry; assumption.
    + rewrite (O2 n Hnj). destruct (Nat.eq_dec n i) as [->|Hni].
      * rewrite N1. symmetry. exact Nj.
      * apply O1, Hni.
Qed.

Lemma shuffle_from_perm {A} i (x : list A) g :
  i < length x \/ i = 0 ->
  exists x' g', PyRandom.shuffle_from i x g = Ok (x', g') /\ Permutation x x'.
Proof.
  revert x g. induction i as [|i IH]; intros x g Hi; cbn [PyRandom.shuffle_from].
  - exists x, g. split; [reflexivity|apply Permutation_refl].
  - destruct Hi as [Hi|Hi]; [|discriminate].
    destruct (randbelow_ok (S (S i)) g) as [j [Hj Hr]]; [lia|].
    destruct (swap_perm x (S i) j) as [x1 [E1 P1]]; [lia|lia|].
    destruct (IH x1 (fun k => g (S k))) as [x2 [g2 [E2 P2]]].
    { left. rewrite <- (Permutation_length P1). lia. }
    exists x2, g2. split; [|exact (Permutation_trans P1 P2)].
    rewrite (bind_ok _ _ _ _ _ Hr), (bind_ok _ _ _ _ _ (lift_ok _ _ _ E1)).
    exact E2.
Qed.

Lemma shuffle_perm {A} (x : list A) g :
  exists x' g', PyRandom.shuffle x g = Ok (x', g') /\ Permutation x x'.
Proof.
  unfold PyRandom.shuffle. apply shuffle_from_perm.
  destruct x; simpl; [right; reflexivity|left; lia].
Qed.

(** ** One question, step by step *)

(** The run of [create_multiple_choice_question]: nothing for an empty
    trimmed sentence or without candidate; otherwise one draw for the
    candidate, the shuffle of the answer with its distractors, and the
    letter of the answer's first position. *)
Lemma create_question_run (sentence : str) (concepts : list str) g :
  let s := PyStr.strip PyChar.isspace sentence in
  let candidates := answer_candidates (PyStr.split s) in
  ((s = [] \/ candidates = [])
   /\ create_multiple_choice_question sentence concepts g = Ok (None, g))
  \/ exists chosen g1 opts g2 i letter,
       let correct := PyStr.strip punctuation chosen in
       s <> []
       /\ PyRandom.choice candidates g = Ok (chosen, g1)
       /\ In chosen candidates
       /\ PyRandom.shuffle (correct :: generate_distractors correct concepts) g1
          = Ok (opts, g2)
       /\ Permutation (correct :: generate_distractors correct concepts) opts
       /\ PyList.index opts correct = Ok i
       /\ nth_error opts i = Some correct
       /\ PyList.chr (65 + i) = Ok letter
       /\ letter_index letter = Some i
       /\ create_multiple_choice_question sentence concepts g
          = Ok (Some {| question := PyStr.replace s correct blank;
                        options := opts;
                        correct_answer := letter;
                        correct_text := correct |}, g2).
Proof.
  intros s candidates. unfold create_multiple_choice_question.
  change (PyStr.strip PyChar.isspace sentence) with s.
  change (answer_candidates (PyStr.split s)) with candidates.
  assert (Hcand : forall w, In w candidates -> occurs_in w s).
  { intros w Hw. apply split_occurs. unfold candidates, answer_candidates in Hw.
    apply filter_In in Hw. apply Hw. }
  clearbody candidates. clearbody s.
  destruct s as [|s0 s']; [left; split; [left|]; reflexivity|].
  destruct candidates as [|c0 cs]; [left; split; [right|]; reflexivity|].
  right. cbn [is_empty].
  set (s := s0 :: s') in *. set (candidates := c0 :: cs) in *.
  destruct (choice_ok candidates g) as [j [chosen [Hch Hnth]]];
    [discriminate|].
  assert (Hin : In chosen candidates) by exact (nth_error_In _ _ Hnth).
  set (correct := PyStr.strip punctuation chosen).
  assert (Hocc : occurs_in correct s).
  { apply occurs_in_trans with chosen; [apply strip_occurs|]. apply Hcand, Hin. }
  assert (Hmark : PyStr.contains blank (PyStr.replace s correct blank) = true)
    by exact (replace_marks _ _ _ Hocc).
  set (g1 := fun k => g (S k)) in *.
  destruct (shuffle_perm (correct :: generate_distractors correct concepts) g1)
    as [opts [g2 [Hsh Hperm]]].
  destruct (index_ok opts correct) as [i [Hidx [Hi Hopt]]].
  { apply (Permutation_in _ Hperm). left. reflexivity. }
  assert (Hlen : length opts = 4).
  { rewrite <- (Permutation_length Hperm). simpl.
    now rewrite generate_distractors_length. }
  destruct (letter_index_chr i) as [letter [Hchr Hletter]]; [lia|].
  exists chosen, g1, opts, g2, i, letter. cbv zeta. fold correct.
  repeat (split; [first [assumption | discriminate]|]).
  rewrite (bind_ok _ _ _ _ _ Hch). fold correct. rewrite Hmark. cbn [negb].
  unfold ret at 1. unfold bind at 1.
  rewrite (bind_ok _ _ _ _ _ Hsh), (bind_ok _ _ _ _ _ (lift_ok _ _ _ Hidx)),
    (bind_ok _ _ _ _ _ (lift_ok _ _ _ Hchr)).
  reflexivity.
Qed.

(** ** The answer and the options *)

Lemma split_runs_free sep prev (s seg : str) :
  In seg (PyStr.split_runs sep prev s) -> free_of sep seg.
Proof.
  revert prev seg. induction s as [|c s IH]; intros prev seg; simpl.
  - intros [<-|[]]. constructor.
  - destruct (sep c) eqn:Hc.
    + destruct prev; [apply IH|]. intros [<-|H]; [constructor|exact (IH _ _ H)].
    + destruct (PyStr.split_runs sep false s) as [|seg0 rest] eqn:E.
      * intros [<-|[]]. constructor; [exact Hc|constructor].
      * intros [<-|H].
        -- constructor; [exact Hc|]. apply (IH false). rewrite E. now left.
        -- apply (IH false). rewrite E. now right.
Qed.

Lemma free_of_occurs p (a b : str) : occurs_in a b -> free_of p b -> free_of p a.
Proof.
  intros [x [y ->]] H. unfold free_of in *.
  apply Forall_app in H. destruct H as [_ H].
  apply Forall_app in H. apply H.
Qed.

Lemma free_of_middle p (a b : str) c : free_of p (a ++ c :: b) -> p c = false.
Proof.
  intros H. apply Forall_app in H. destruct H as [_ H].
  inversion H; assumption.
Qed.

Lemma candidate_token (s chosen : str) :
  In chosen (answer_candidates (PyStr.split s)) ->
  In chosen (PyStr.split s)
  /\ 4 < length chosen
  /\ PyList.mem (PyStr.lower chosen) connectives = false
  /\ free_of PyChar.isspace chosen.
Proof.
  unfold answer_candidates. intros H. apply filter_In in H.
  destruct H as [Hin H]. apply andb_prop in H. destruct H as [Hlen Hcon].
  split; [exact Hin|]. split; [now apply Nat.ltb_lt|].
  split; [now apply negb_true_iff|].
  unfold PyStr.split in Hin. apply filter_In in Hin.
  exact (split_runs_free _ _ _ _ (proj1 Hin)).
Qed.

(** A string without whitespace is none of its own distractors. *)
Lemma answer_not_distractor (correct : str) (concepts : list str) :
  free_of PyChar.isspace correct ->
  ~ In correct (generate_distractors correct concepts).
Proof.
  intros Hfree Hin. rewrite generate_distractors_split in Hin.
  apply in_app_or in Hin. destruct Hin as [Hin|Hin]; apply firstn_subset in Hin.
  - apply other_concepts_In in Hin. destruct Hin as [_ Hne]. now apply Hne.
  - unfold generic_distractors in Hin.
    destruct Hin as [E|[E|[E|[]]]]; rewrite <- E in Hfree.
    + apply (free_of_middle _ (lit "Not") _ " "%char) in Hfree. discriminate.
    + apply (free_of_middle _ (lit "Opposite") _ " "%char) in Hfree. discriminate.
    + apply (free_of_middle _ (lit "None") (lit "of the above") " "%char) in Hfree.
      discriminate.
Qed.

Lemma count_one_position (l : list str) (x : str) i j :
  count_occ str_eq_dec l x = 1 ->
  nth_error l i = Some x -> nth_error l j = Some x -> i = j.
Proof.
  revert i j. induction l as [|y l IH]; intros i j Hc Hi Hj.
  - destruct i; discriminate.
  - simpl in Hc. destruct (str_eq_dec y x) as [->|Hne].
    + assert (Hnot : ~ In x l).
      { intros H. apply (count_occ_In str_eq_dec) in H. lia. }
      destruct i as [|i], j as [|j]; [reflexivity| | |];
        exfalso; apply Hnot; eapply nth_error_In; eassumption.
    + destruct i as [|i]; [simpl in Hi; congruence|].
      destruct j as [|j]; [simpl in Hj; congruence|].
      f_equal. exact (IH _ _ Hc Hi Hj).
Qed.

(** The answer of a question built from a sentence is a token of it: a
    word of the trimmed sentence longer than 4 characters and no
    connective, without the '.,!?' at its ends; it holds no whitespace. *)
Theorem correct_text_is_stripped_token (sentence : str) (concepts : list str) g :
  exists made g',
    create_multiple_choice_question sentence concepts g = Ok (made, g')
    /\ forall q,
         made = Some q ->
         (exists word,
             In word (PyStr.split (PyStr.strip PyChar.isspace sentence))
             /\ 4 < length word
             /\ PyList.mem (PyStr.lower word) connectives = false
             /\ correct_text q = PyStr.strip punctuation word)
         /\ free_of PyChar.isspace (correct_text q)
         /\ (forall c t, correct_text q = c :: t -> punctuation c = false)
         /\ (forall t c, correct_text q = t ++ [c] -> punctuation c = false).
Proof.
  destruct (create_question_run sentence concepts g)
    as [[_ Hnone]
       |[chosen [g1 [opts [g2 [i [letter [_ [_ [Hin [_ [_ [_ [_ [_ [_ Hrun]]]]]]]]]]]]]]]].
  - exists None, g. split; [exact Hnone|]. discriminate.
  - eexists. eexists. split; [exact Hrun|].
    intros q E. injection E as <-. cbn [correct_text].
    destruct (candidate_token _ _ Hin) as [Hword [Hlen [Hcon Hfree]]].
    split; [exists chosen; repeat split; assumption|].
    split; [exact (free_of_occurs _ _ _ (strip_occurs _ _) Hfree)|].
    split; [apply strip_head|apply strip_last].
Qed.

(** The options of a question built from a sentence are the answer and
    its three distractors in some order; the answer is there once, so the
    answer letter names the only option equal to [correct_text]. *)
Theorem options_hold_answer_once (sentence : str) (concepts : list str) g :
  exists made g',
    create_multiple_choice_question sentence concepts g = Ok (made, g')
    /\ forall q,
         made = Some q ->
         Permutation
           (correct_text q :: generate_distractors (correct_text q) concepts)
           (options q)
         /\ count_occ str_eq_dec (options q) (correct_text q) = 1
         /\ forall j,
              nth_error (options q) j = Some (correct_text q)
              <-> letter_index (correct_answer q) = Some j.
Proof.
  destruct (create_question_run sentence concepts g)
    as [[_ Hnone]
       |[chosen [g1 [opts [g2 [i [letter
          [_ [_ [Hin [_ [Hperm [_ [Hnth [_ [Hletter Hrun]]]]]]]]]]]]]]]].
  - exists None, g. split; [exact Hnone|]. discriminate.
  - eexists. eexists. split; [exact Hrun|].
    intros q E. injection E as <-.
    cbn [correct_text options correct_answer].
    set (correct := PyStr.strip punctuation chosen) in *.
    assert (Hfree : free_of PyChar.isspace correct).
    { destruct (candidate_token _ _ Hin) as [_ [_ [_ Hfree]]].
      exact (free_of_occurs _ _ _ (strip_occurs _ _) Hfree). }
    assert (Hone : count_occ str_eq_dec opts correct = 1).
    { rewrite <- (proj1 (Permutation_count_occ str_eq_dec _ _) Hperm correct).
      rewrite count_occ_cons_eq by reflexivity. f_equal.
      apply count_occ_not_In. now apply answer_not_distractor. }
    split; [exact Hperm|]. split; [exact Hone|].
    intros j. rewrite Hletter. split.
    + intros Hj. f_equal. exact (count_one_position _ _ _ _ Hone Hnth Hj).
    + intros E. injection E as <-. exact Hnth.
Qed.

(** ** The accepted questions *)

Lemma question_in_false q (questions : list QuizQuestion) :
  question_in q questions = false -> ~ In q questions.
Proof.
  unfold question_in. intros H Hin.
  assert (Ht : existsb (fun q' => if QuizQuestion_eq_dec q q' then true else false)
                       questions = true).
  { apply existsb_exists. exists q. split; [exact Hin|].
    destruct (QuizQuestion_eq_dec q q); [reflexivity|contradiction]. }
  congruence.
Qed.

Lemma sentence_loop_built (sentences concepts : list str) questions attempts g :
  NoDup questions ->
  Forall (built_from sentences concepts) questions ->
  exists qs final g',
    sentence_loop sentences concepts questions attempts g = Ok (qs, final, g')
    /\ NoDup qs
    /\ Forall (built_from sentences concepts) qs.
Proof.
  funelim (sentence_loop sentences concepts questions attempts g);
    intros Hnd Hbuilt.
  - exists questions, attempts, g. repeat split; assumption.
  - destruct (attempt_spec sentences concepts questions g)
      as [qs1 [g1 [Hat Hcases]]].
    match goal with
    | Heq : attempt _ _ _ _ = Ok _ |- _ =>
        rewrite Hat in Heq; injection Heq as <- <-
    end.
    match goal with
    | IH : _ -> _ -> exists _ _ _, _ |- _ => apply IH
    end.
    + destruct Hcases as [->|[s [q [ga [gb [_ [_ [_ [Hnew ->]]]]]]]]];
        [assumption|].
      apply NoDup_app; [exact Hnd|repeat constructor; intros []|].
      intros x Hx [<-|[]]. exact (question_in_false _ _ Hnew Hx).
    + destruct Hcases as [->|[s [q [ga [gb [Hs [Hq [_ [_ ->]]]]]]]]];
        [assumption|].
      apply Forall_app. split; [assumption|].
      constructor; [|constructor]. exists s, ga, gb. split; assumption.
  - destruct (attempt_spec sentences concepts questions g)
      as [qs1 [g1 [Hat _]]].
    match goal with
    | Heq : attempt _ _ _ _ = Raise _ |- _ => rewrite Hat in Heq; discriminate
    end.
Qed.

Lemma strip_strip p (s : str) : PyStr.strip p (PyStr.strip p s) = PyStr.strip p s.
Proof. apply strip_fixed; [apply strip_head|apply strip_last]. Qed.

Lemma occurs_in_length (a b : str) : occurs_in a b -> length a <= length b.
Proof. intros [x [y ->]]. rewrite !length_app. lia. Qed.

(** The sentences of the pool: trimmed segments of the text, longer than
    20 characters, without '.', '!' or '?'. *)
Theorem sentence_pool_entries (text : str) :
  Forall (fun sentence =>
            20 < length sentence
            /\ PyStr.strip PyChar.isspace sentence = sentence
            /\ free_of (PyChar.one_of (lit ".!?")) sentence
            /\ occurs_in sentence text)
         (sentence_pool text).
Proof.
  apply Forall_forall. intros sentence H. unfold sentence_pool in H.
  apply in_map_iff in H. destruct H as [seg [<- Hseg]].
  apply filter_In in Hseg. destruct Hseg as [Hseg Hlen].
  apply Nat.ltb_lt in Hlen.
  split; [exact Hlen|]. split; [apply strip_strip|].
  assert (Hocc : occurs_in (PyStr.strip PyChar.isspace seg) seg)
    by apply strip_occurs.
  split.
  - apply (free_of_occurs _ _ _ Hocc).
    exact (split_runs_free _ _ _ _ Hseg).
  - apply (occurs_in_trans _ _ _ Hocc).
    exact (split_runs_occurs _ _ _ _ Hseg).
Qed.

Lemma built_from_pool (text : str) (concepts : list str) q :
  built_from (sentence_pool text) concepts q ->
  exists sentence,
    In sentence (sentence_pool text)
    /\ occurs_in (correct_text q) sentence
    /\ question q = PyStr.replace sentence (correct_text q) blank.
Proof.
  intros [sentence [g0 [g1 [Hin Hq]]]]. exists sentence. split; [exact Hin|].
  assert (Hs : PyStr.strip PyChar.isspace sentence = sentence).
  { assert (H := sentence_pool_entries text). rewrite Forall_forall in H.
    apply (H sentence Hin). }
  destruct (create_question_spec sentence concepts g0)
    as [[_ Hnone]|[_ [_ [chosen [q0 [g' [Hq0 [_ [_ [Hocc [Hrep _]]]]]]]]]]].
  - rewrite Hnone in Hq. discriminate.
  - rewrite Hq0 in Hq. injection Hq as -> _. rewrite Hs in *.
    split; assumption.
Qed.

(** The result of [generate_quiz_questions] is the accepted questions
    followed by the generic ones.  The accepted questions are pairwise
    different, and each is a sentence of the pool with its answer
    blanked. *)
Theorem accepted_questions_distinct (text : str) (concepts : list str) g :
  exists accepted generics g',
    generate_quiz_questions text concepts g = Ok (accepted ++ generics, g')
    /\ length accepted + length generics = 3
    /\ NoDup accepted
    /\ Forall (fun q =>
                 exists sentence,
                   In sentence (sentence_pool text)
                   /\ occurs_in (correct_text q) sentence
                   /\ question q
                      = PyStr.replace sentence (correct_text q) blank)
              accepted
    /\ Forall (is_generic concepts) generics.
Proof.
  destruct (sentence_loop_built (sentence_pool text) concepts [] 0 g)
    as [accepted [final [g1 [Hloop [Hnd Hbuilt]]]]]; [constructor|constructor|].
  destruct (generate_quiz_questions_spec text concepts g)
    as [acc' [att' [g1' [generics [g2 [Hloop' [_ [_ [Hrun [Hlen [_ Hgen]]]]]]]]]]].
  rewrite Hloop in Hloop'. injection Hloop' as <- <- <-.
  exists accepted, generics, g2.
  split; [exact Hrun|]. split; [now rewrite <- length_app|].
  split; [exact Hnd|]. split; [|exact Hgen].
  apply Forall_forall. intros q Hq. apply (built_from_pool text concepts).
  rewrite Forall_forall in Hbuilt. exact (Hbuilt q Hq).
Qed.

(** ** Short texts *)

Lemma sub_spaces_length b (s : str) : length (PyRe.sub_spaces b s) <= length s.
Proof.
  revert b. induction s as [|c s IH]; intros b; simpl; [lia|].
  destruct (PyChar.isspace c); [destruct b|]; simpl;
    [specialize (IH true)|specialize (IH true)|specialize (IH false)]; lia.
Qed.

Lemma clean_text_length (text : str) : length (clean_text text) <= length text.
Proof.
  unfold clean_text.
  assert (H1 := sub_spaces_length false (PyStr.strip PyChar.isspace text)).
  assert (H2 := occurs_in_length _ _ (strip_occurs PyChar.isspace text)). lia.
Qed.

Lemma short_text_no_pool (text : str) :
  length text <= 20 -> sentence_pool text = [].
Proof.
  intros Hlen. apply sentence_pool_empty. intros seg Hseg.
  assert (H1 := occurs_in_length _ _ (strip_occurs PyChar.isspace seg)).
  assert (H2 := occurs_in_length _ _ (split_runs_occurs _ _ _ _ Hseg)). lia.
Qed.

Lemma no_pool_all_generic (text : str) (concepts : list str) g :
  sentence_pool text = [] ->
  exists questions g',
    generate_quiz_questions text concepts g = Ok (questions, g')
    /\ length questions = 3
    /\ Forall (is_generic concepts) questions.
Proof.
  intros Hpool.
  destruct (sentence_loop_built (sentence_pool text) concepts [] 0 g)
    as [accepted [final [g1 [Hloop [_ Hbuilt]]]]]; [constructor|constructor|].
  assert (Hacc : accepted = []).
  { destruct accepted as [|q rest]; [reflexivity|].
    inversion Hbuilt as [|? ? [s [g0 [g0' [Hin _]]]] _]; subst.
    rewrite Hpool in Hin. contradiction. }
  subst accepted.
  destruct (generate_quiz_questions_spec text concepts g)
    as [acc' [att' [g1' [generics [g2 [Hloop' [_ [_ [Hrun [Hlen [_ Hgen]]]]]]]]]]].
  rewrite Hloop in Hloop'. injection Hloop' as <- <- <-.
  exists generics, g2. repeat split; assumption.
Qed.

(** On an input of at most 20 characters no sentence reaches the pool:
    [generate_content] returns three generic questions, about the
    concepts it found. *)
Theorem short_input_generic_questions (rank : str -> nat) (input_text : str) g :
  length input_text <= 20 ->
  exists result g',
    generate_content rank input_text g = Ok (result, g')
    /\ length (quiz_questions result) = 3
    /\ Forall (is_generic (concepts_found result)) (quiz_questions result).
Proof.
  intros Hlen. unfold generate_content. set (text := clean_text input_text).
  assert (Hpool : sentence_pool text = []).
  { apply short_text_no_pool. assert (H := clean_text_length input_text).
    fold text in H. lia. }
  destruct (extract_key_concepts_ok rank text) as [concepts [Ec [Hten _]]].
  assert (Hsmall : length concepts <= 21) by lia.
  destruct (generate_assignments_ok text concepts g Hsmall) as [a1 [a2 [g1 Ha]]].
  destruct (no_pool_all_generic text concepts g1 Hpool)
    as [questions [g2 [Hq [Hthree Hgen]]]].
  eexists. eexists. split.
  { rewrite (bind_ok _ _ _ _ _ (lift_ok _ _ _ Ec)), (bind_ok _ _ _ _ _ Ha),
      (bind_ok _ _ _ _ _ Hq). reflexivity. }
  cbn [quiz_questions concepts_found]. split; assumption.
Qed.

Lemma short_input_generic_questions_witness :
  length (lit "This is a Test.") <= 20
  /\ exists result g',
       generate_content (fun c => length c) (lit "This is a Test.") (fun n => n)
       = Ok (result, g')
       /\ length (quiz_questions result) = 3
       /\ Forall (is_generic (concepts_found result)) (quiz_questions result).
Proof.
  assert (H : length (lit "This is a Test.") <= 20) by (simpl; lia).
  split; [exact H|].
  exact (short_input_generic_questions (fun c => length c)
           (lit "This is a Test.") (fun n => n) H).
Defined.

(** ** What the concepts are *)

Lemma dict_get_set_same (d : PyDict.dict) k v dflt :
  PyDict.get (PyDict.set d k v) k dflt = v.
Proof.
  induction d as [|[k' v'] d IH]; simpl.
  - destruct (str_eq_dec k k); [reflexivity|contradiction].
  - destruct (str_eq_dec k' k) as [->|Hne]; simpl.
    + destruct (str_eq_dec k k); [reflexivity|contradiction].
    + destruct (str_eq_dec k' k); [contradiction|exact IH].
Qed.

Lemma dict_get_set_other (d : PyDict.dict) k k0 v dflt :
  k0 <> k -> PyDict.get (PyDict.set d k v) k0 dflt = PyDict.get d k0 dflt.
Proof.
  intros Hne. induction d as [|[k' v'] d IH]; simpl.
  - destruct (str_eq_dec k k0); [congruence|reflexivity].
  - destruct (str_eq_dec k' k) as [->|Hk]; simpl.
    + destruct (str_eq_dec k k0); [congruence|reflexivity].
    + destruct (str_eq_dec k' k0); [reflexivity|exact IH].
Qed.

Lemma dict_set_keys (d : PyDict.dict) k v :
  map fst (PyDict.set d k v)
  = if in_dec str_eq_dec k (map fst d) then map fst d else map fst d ++ [k].
Proof.
  induction d as [|[k' v'] d IH]; simpl; [reflexivity|].
  destruct (str_eq_dec k' k) as [->|Hne]; simpl.
  - reflexivity.
  - rewrite IH. destruct (in_dec str_eq_dec k (map fst d)); reflexivity.
Qed.

Lemma dict_set_NoDup (d : PyDict.dict) k v :
  NoDup (map fst d) -> NoDup (map fst (PyDict.set d k v)).
Proof.
  intros H. rewrite dict_set_keys.
  destruct (in_dec str_eq_dec k (map fst d)) as [Hin|Hnin]; [exact H|].
  apply NoDup_app; [exact H|repeat constructor; intros []|].
  intros x Hx [<-|[]]. contradiction.
Qed.

Lemma dict_get_In (d : PyDict.dict) k v :
  NoDup (map fst d) -> In (k, v) d -> PyDict.get d k 0 = v.
Proof.
  induction d as [|[k' v'] d IH]; simpl; intros Hnd Hin; [contradiction|].
  inversion Hnd as [|? ? Hk Hd]; subst.
  destruct (str_eq_dec k' k) as [->|Hne].
  - destruct Hin as [E|Hin]; [congruence|].
    exfalso. apply Hk. apply in_map_iff. exists (k, v). split; [reflexivity|exact Hin].
  - destruct Hin as [E|Hin]; [congruence|]. exact (IH Hd Hin).
Qed.

Lemma mentions_snoc key (seen : list str) word :
  mentions key (seen ++ [word])
  = mentions key seen
    + (if (3 <? length word) && str_eqb (PyStr.lower word) key then 1 else 0).
Proof.
  unfold mentions. rewrite filter_app, length_app. simpl.
  destruct ((3 <? length word) && str_eqb (PyStr.lower word) key); reflexivity.
Qed.

Lemma scan_word_scanned seen st word :
  scanned seen st ->
  exists st', scan_word st word = Ok st' /\ scanned (seen ++ [word]) st'.
Proof.
  destruct st as [concepts word_freq]. unfold scanned. cbn [fst snd].
  intros [Hc [Hnd Hget]]. unfold scan_word.
  assert (Hpick : filter capital_pick (seen ++ [word])
                  = concepts ++ (if capital_pick word then [word] else [])).
  { rewrite filter_app, Hc. simpl. now destruct (capital_pick word). }
  destruct (Nat.ltb_spec 3 (length word)) as [Hlong|Hshort].
  - destruct word as [|first word]; [simpl in Hlong; lia|].
    cbn [PyList.getitem nth_error bindE].
    assert (Hcap : capital_pick (first :: word)
                   = PyChar.isupper first
                     && negb (PyList.mem (PyStr.lower (first :: word))
                                         concept_stoplist)).
    { unfold capital_pick.
      destruct (Nat.ltb_spec 3 (length (first :: word))); [reflexivity|lia]. }
    rewrite Hcap in Hpick.
    assert (Hfreq : forall key,
               PyDict.get
                 (PyDict.set word_freq (PyStr.lower (first :: word))
                    (PyDict.get word_freq (PyStr.lower (first :: word)) 0 + 1))
                 key 0
               = mentions key (seen ++ [first :: word])).
    { intros key. rewrite mentions_snoc.
      destruct (Nat.ltb_spec 3 (length (first :: word))); [|lia].
      cbn [andb]. unfold str_eqb.
      destruct (str_eq_dec (PyStr.lower (first :: word)) key) as [<-|Hne].
      - rewrite dict_get_set_same, Hget. reflexivity.
      - rewrite dict_get_set_other by congruence. rewrite Hget. lia. }
    destruct (PyChar.isupper first && _); eexists;
      (split; [reflexivity|]); cbn [fst snd];
      (split; [|split; [apply dict_set_NoDup, Hnd|exact Hfreq]]).
    + symmetry. exact Hpick.
    + rewrite Hpick. now rewrite app_nil_r.
  - exists (concepts, word_freq). split; [reflexivity|]. cbn [fst snd].
    assert (Hno : capital_pick word = false).
    { unfold capital_pick.
      destruct (Nat.ltb_spec 3 (length word)); [lia|reflexivity]. }
    rewrite Hno, app_nil_r in Hpick.
    split; [symmetry; exact Hpick|]. split; [exact Hnd|].
    intros key. rewrite mentions_snoc, Hget.
    destruct (Nat.ltb_spec 3 (length word)); [lia|]. simpl. lia.
Qed.

Lemma foldE_scanned {A S} (P : list A -> S -> Prop) (f : S -> A -> Exc S) :
  (forall seen st a, P seen st -> exists st', f st a = Ok st' /\ P (seen ++ [a]) st') ->
  forall l seen st,
    P seen st -> exists st', foldE f st l = Ok st' /\ P (seen ++ l) st'.
Proof.
  intros Hf. induction l as [|a l IH]; intros seen st Hst; simpl.
  - exists st. rewrite app_nil_r. split; [reflexivity|exact Hst].
  - destruct (Hf seen st a Hst) as [st1 [E1 H1]]. rewrite E1. simpl.
    destruct (IH _ _ H1) as [st2 [E2 H2]]. exists st2.
    rewrite <- app_assoc in H2. split; assumption.
Qed.

Lemma scan_text_scanned (text : str) :
  exists st,
    foldE scan_sentence ([], []) (PyRe.split_sentences text) = Ok st
    /\ scanned (text_words text) st.
Proof.
  unfold text_words.
  destruct (foldE_scanned
              (fun sentences st => scanned (flat_map PyRe.findall_words sentences) st)
              scan_sentence) with (l := PyRe.split_sentences text)
                                  (seen := @nil str)
                                  (st := (@nil str, @nil (str * nat)))
    as [st [E H]].
  - intros seen st sentence Hst. unfold scan_sentence.
    rewrite flat_map_app. simpl. rewrite app_nil_r.
    apply (foldE_scanned scanned scan_word scan_word_scanned). exact Hst.
  - split; [reflexivity|]. split; [constructor|]. intros key. reflexivity.
  - exists st. split; assumption.
Qed.

Lemma lower_letter c :
  PyChar.is_ascii_letter c = true -> PyChar.is_ascii_letter (PyChar.lower c) = true.
Proof.
  destruct c as [[] [] [] [] [] [] [] []]; intros H;
    first [discriminate H | reflexivity].
Qed.

Lemma letter_not_space c :
  PyChar.is_ascii_letter c = true -> PyChar.isspace c = false.
Proof.
  destruct c as [[] [] [] [] [] [] [] []]; intros H;
    first [discriminate H | reflexivity].
Qed.

Lemma text_words_letters (text word : str) :
  In word (text_words text) ->
  forallb PyChar.is_ascii_letter word = true /\ occurs_in word text.
Proof.
  unfold text_words. intros H. apply in_flat_map in H.
  destruct H as [sentence [Hs Hw]]. unfold PyRe.findall_words in Hw.
  apply filter_In in Hw. destruct Hw as [Hw Hok].
  apply andb_prop in Hok. split; [apply Hok|].
  apply occurs_in_trans with sentence.
  - exact (split_runs_occurs _ _ _ _ Hw).
  - exact (split_runs_occurs _ _ _ _ Hs).
Qed.

Lemma lower_letters (word : str) :
  forallb PyChar.is_ascii_letter word = true ->
  forallb PyChar.is_ascii_letter (PyStr.lower word) = true.
Proof.
  induction word as [|c word IH]; simpl; [reflexivity|].
  intros H. apply andb_prop in H. destruct H as [Hc Hw].
  now rewrite (lower_letter _ Hc), IH.
Qed.

Lemma mentions_word key (words : list str) :
  0 < mentions key words ->
  exists w, In w words /\ 3 < length w /\ key = PyStr.lower w.
Proof.
  unfold mentions. intros H.
  set (hit := fun w => (3 <? length w) && str_eqb (PyStr.lower w) key) in *.
  destruct (filter hit words) as [|w rest] eqn:E; [simpl in H; lia|].
  assert (Hw : In w (filter hit words)) by (rewrite E; now left).
  apply filter_In in Hw. destruct Hw as [Hin Hok].
  apply andb_prop in Hok. destruct Hok as [Hlen Heq].
  exists w. split; [exact Hin|]. split; [now apply Nat.ltb_lt|].
  unfold str_eqb in Heq. destruct (str_eq_dec (PyStr.lower w) key); congruence.
Qed.

Lemma frequent_words_mentions seen st key :
  scanned seen st ->
  In key (frequent_words (snd st)) ->
  4 < length key /\ 2 <= mentions key seen.
Proof.
  intros [_ [Hnd Hget]] H. unfold frequent_words, PyDict.items in H.
  apply in_map_iff in H. destruct H as [[k v] [E Hkv]]. simpl in E. subst k.
  apply filter_In in Hkv. destruct Hkv as [Hin Hok]. simpl in Hok.
  apply andb_prop in Hok. destruct Hok as [Hv Hlen].
  apply Nat.ltb_lt in Hv, Hlen. split; [exact Hlen|].
  rewrite <- Hget, (dict_get_In _ _ _ Hnd Hin). lia.
Qed.

(** Every concept is made of ASCII letters and comes from the words of
    the text: a word longer than 3 letters that starts with a capital and
    is outside the stoplist, or the lowercase form, longer than 4 letters,
    that at least two words longer than 3 letters share. *)
Theorem concepts_come_from_text (rank : str -> nat) (text : str) :
  exists concepts,
    extract_key_concepts rank text = Ok concepts
    /\ Forall (fun c =>
                 forallb PyChar.is_ascii_letter c = true
                 /\ ((In c (text_words text) /\ capital_pick c = true)
                     \/ (4 < length c
                         /\ 2 <= mentions c (text_words text)
                         /\ exists w,
                              In w (text_words text) /\ c = PyStr.lower w)))
              concepts
    /\ Forall (fun w => occurs_in w text) (text_words text).
Proof.
  destruct (scan_text_scanned text) as [[caps word_freq] [E Hst]].
  unfold extract_key_concepts. rewrite E. cbn [bindE].
  eexists. split; [reflexivity|]. split.
  - apply Forall_forall. intros c Hc. apply firstn_subset in Hc.
    apply (proj1 (proj2 (list_of_set_spec rank _) c)) in Hc.
    apply in_app_or in Hc. destruct Hc as [Hc|Hc].
    + destruct Hst as [Hcaps _]. cbn [fst] in Hcaps. rewrite Hcaps in Hc.
      apply filter_In in Hc. destruct Hc as [Hin Hpick].
      split; [apply (text_words_letters text c Hin)|]. left. split; assumption.
    + apply firstn_subset in Hc.
      destruct (frequent_words_mentions _ _ _ Hst Hc) as [Hlen Hm].
      destruct (mentions_word c (text_words text)) as [w [Hw [_ Hcw]]]; [lia|].
      split.
      * rewrite Hcw. apply lower_letters. apply (text_words_letters text w Hw).
      * right. split; [exact Hlen|]. split; [exact Hm|]. exists w. split; assumption.
  - apply Forall_forall. intros w Hw. apply (text_words_letters text w Hw).
Qed.

(** A word of the text that passes the capital test is among the
    concepts, unless 10 concepts are returned. *)
Theorem capitalised_words_kept (rank : str -> nat) (text : str) :
  exists concepts,
    extract_key_concepts rank text = Ok concepts
    /\ forall w,
         In w (text_words text) -> capital_pick w = true ->
         In w concepts \/ length concepts = 10.
Proof.
  destruct (scan_text_scanned text) as [[caps word_freq] [E Hst]].
  unfold extract_key_concepts. rewrite E. cbn [bindE].
  eexists. split; [reflexivity|]. intros w Hw Hpick.
  set (all := PyList.list_of_set rank (caps ++ firstn 5 (frequent_words word_freq))).
  assert (Hin : In w all).
  { apply (proj2 (list_of_set_spec rank _)). apply in_or_app. left.
    destruct Hst as [Hcaps _]. cbn [fst] in Hcaps. rewrite Hcaps.
    apply filter_In. split; assumption. }
  destruct (Nat.le_gt_cases (length all) 10) as [Hle|Hgt].
  - left. now rewrite firstn_all2.
  - right. rewrite length_firstn. lia.
Qed.

(** ** Options without duplicate *)

Lemma quiz_questions_all (P : QuizQuestion -> Prop)
  (text : str) (concepts : list str) g :
  (forall sentence g0 q g1,
      create_multiple_choice_question sentence concepts g0 = Ok (Some q, g1) ->
      P q) ->
  (forall q, is_generic concepts q -> P q) ->
  exists questions g',
    generate_quiz_questions text concepts g = Ok (questions, g')
    /\ length questions = 3
    /\ Forall P questions.
Proof.
  intros Hbuilt Hgeneric.
  destruct (sentence_loop_built (sentence_pool text) concepts [] 0 g)
    as [accepted [final [g1 [Hloop [_ Hacc]]]]]; [constructor|constructor|].
  destruct (generate_quiz_questions_spec text concepts g)
    as [acc' [att' [g1' [generics [g2 [Hloop' [_ [_ [Hrun [Hlen [_ Hgen]]]]]]]]]]].
  rewrite Hloop in Hloop'. injection Hloop' as <- <- <-.
  exists (accepted ++ generics), g2. split; [exact Hrun|]. split; [exact Hlen|].
  apply Forall_app. split.
  - apply Forall_forall. intros q Hq. rewrite Forall_forall in Hacc.
    destruct (Hacc q Hq) as [sentence [g0 [g0' [_ Hcreate]]]].
    exact (Hbuilt _ _ _ _ Hcreate).
  - apply Forall_forall. intros q Hq. rewrite Forall_forall in Hgen.
    exact (Hgeneric q (Hgen q Hq)).
Qed.

Lemma NoDup_firstn {A} n (l : list A) : NoDup l -> NoDup (firstn n l).
Proof.
  intros H. apply (NoDup_app_remove_r _ (skipn n l)). now rewrite firstn_skipn.
Qed.

Lemma generic_distractor_space (correct d : str) :
  In d (generic_distractors correct) -> ~ free_of PyChar.isspace d.
Proof.
  unfold generic_distractors. intros [<-|[<-|[<-|[]]]] Hfree.
  - apply (free_of_middle _ (lit "Not") _ " "%char) in Hfree. discriminate.
  - apply (free_of_middle _ (lit "Opposite") _ " "%char) in Hfree. discriminate.
  - apply (free_of_middle _ (lit "None") (lit "of the above") " "%char) in Hfree.
    discriminate.
Qed.

Lemma generic_distractors_NoDup (correct : str) :
  NoDup (generic_distractors correct).
Proof.
  unfold generic_distractors.
  repeat (constructor; [simpl; intuition discriminate|]). constructor.
Qed.

(** Among concepts without duplicate and without whitespace, an answer
    without whitespace and its distractors are four different strings. *)
Lemma answer_and_distractors_NoDup (correct : str) (concepts : list str) :
  NoDup concepts ->
  Forall (free_of PyChar.isspace) concepts ->
  free_of PyChar.isspace correct ->
  NoDup (correct :: generate_distractors correct concepts).
Proof.
  intros Hnd Hfree Hcorrect.
  constructor; [now apply answer_not_distractor|].
  rewrite generate_distractors_split. apply NoDup_app.
  - apply NoDup_firstn. unfold other_concepts. now apply NoDup_filter.
  - apply NoDup_firstn, generic_distractors_NoDup.
  - intros d Hd Hg. apply firstn_subset in Hd, Hg.
    apply (generic_distractor_space _ _ Hg).
    apply other_concepts_In in Hd. rewrite Forall_forall in Hfree.
    apply Hfree, Hd.
Qed.

Lemma letters_free_of_space (word : str) :
  forallb PyChar.is_ascii_letter word = true -> free_of PyChar.isspace word.
Proof.
  intros H. apply Forall_forall. intros c Hc.
  rewrite forallb_forall in H. apply letter_not_space, H, Hc.
Qed.

Lemma extract_key_concepts_letters (rank : str -> nat) (text : str) :
  exists concepts,
    extract_key_concepts rank text = Ok concepts
    /\ length concepts <= 10
    /\ NoDup concepts
    /\ Forall (free_of PyChar.isspace) concepts.
Proof.
  destruct (scan_text_scanned text) as [[caps word_freq] [Escan Hst]].
  unfold extract_key_concepts. rewrite Escan. cbn [bindE].
  eexists. split; [reflexivity|]. split; [apply firstn_le_length|]. split.
  - apply NoDup_firstn. apply list_of_set_spec.
  - apply Forall_forall. intros c Hc. apply firstn_subset in Hc.
    apply (proj1 (proj2 (list_of_set_spec rank _) c)) in Hc.
    apply letters_free_of_space.
    apply in_app_or in Hc. destruct Hc as [Hc|Hc].
    + destruct Hst as [Hcaps _]. cbn [fst] in Hcaps. rewrite Hcaps in Hc.
      apply filter_In in Hc. apply (text_words_letters text c (proj1 Hc)).
    + apply firstn_subset in Hc.
      destruct (frequent_words_mentions _ _ _ Hst Hc) as [_ Hm].
      destruct (mentions_word c (text_words text)) as [w [Hw [_ ->]]]; [lia|].
      apply lower_letters. apply (text_words_letters text w Hw).
Qed.

(** Every question that [generate_content] returns has four different
    options: concepts are words of letters without duplicate, the answer
    holds no whitespace, and each generic distractor holds a space. *)
Theorem pipeline_options_distinct (rank : str -> nat) (input_text : str) g :
  exists result g',
    generate_content rank input_text g = Ok (result, g')
    /\ Forall (fun q => NoDup (options q) /\ length (options q) = 4)
              (quiz_questions result).
Proof.
  unfold generate_content. set (text := clean_text input_text).
  destruct (extract_key_concepts_letters rank text)
    as [concepts [Ec [Hten [Hnd Hfree]]]].
  assert (Hsmall : length concepts <= 21) by lia.
  destruct (generate_assignments_ok text concepts g Hsmall) as [a1 [a2 [g1 Ha]]].
  destruct (quiz_questions_all
              (fun q => NoDup (options q) /\ length (options q) = 4)
              text concepts g1) as [questions [g2 [Hq [_ Hall]]]].
  - intros sentence g0 q g0' Hcreate.
    destruct (create_question_run sentence concepts g0)
      as [[_ Hnone]
         |[chosen [ga [opts [gb [i [letter
            [_ [_ [Hin [_ [Hperm [_ [_ [_ [_ Hrun]]]]]]]]]]]]]]]].
    + rewrite Hnone in Hcreate. discriminate.
    + rewrite Hrun in Hcreate. injection Hcreate as <- _. cbn [options].
      assert (Hcorrect : free_of PyChar.isspace (PyStr.strip punctuation chosen)).
      { destruct (candidate_token _ _ Hin) as [_ [_ [_ Hc]]].
        exact (free_of_occurs _ _ _ (strip_occurs _ _) Hc). }
      split.
      * apply (Permutation_NoDup Hperm).
        now apply answer_and_distractors_NoDup.
      * rewrite <- (Permutation_length Hperm). simpl.
        now rewrite generate_distractors_length.
  - intros q [_ [[_ [_ [Ho _]]]|[c [_ [_ [Ho _]]]]]]; rewrite Ho;
      (split; [|reflexivity]);
      repeat (constructor; [simpl; intuition discriminate|]); constructor.
  - eexists. eexists. split.
    { rewrite (bind_ok _ _ _ _ _ (lift_ok _ _ _ Ec)), (bind_ok _ _ _ _ _ Ha),
        (bind_ok _ _ _ _ _ Hq). reflexivity. }
    exact Hall.
Qed.

(** ** The normaliser joins the words *)

Lemma split_runs_cons sep prev (s : str) :
  exists seg rest, PyStr.split_runs sep prev s = seg :: rest.
Proof.
  revert prev. induction s as [|c s IH]; intros prev; simpl.
  - eexists. eexists. reflexivity.
  - destruct (sep c).
    + destruct prev; [apply IH|]. eexists. eexists. reflexivity.
    + destruct (PyStr.split_runs sep false s); eexists; eexists; reflexivity.
Qed.

Lemma split_runs_sub_spaces b (s : str) :
  PyStr.split_runs PyChar.isspace b (PyRe.sub_spaces b s)
  = PyStr.split_runs PyChar.isspace b s.
Proof.
  revert b. induction s as [|c s IH]; intros b; simpl; [reflexivity|].
  destruct (PyChar.isspace c) eqn:Hc.
  - destruct b; [apply IH|]. simpl. now rewrite IH.
  - simpl. rewrite Hc, IH. reflexivity.
Qed.

Lemma split_runs_prev sep (s : str) :
  filter (fun w => negb (is_empty w)) (PyStr.split_runs sep true s)
  = filter (fun w => negb (is_empty w)) (PyStr.split_runs sep false s).
Proof.
  destruct s as [|c s]; simpl; [reflexivity|].
  destruct (sep c); reflexivity.
Qed.

Lemma split_after_spaces (a s : str) :
  forallb PyChar.isspace a = true -> PyStr.split (a ++ s) = PyStr.split s.
Proof.
  unfold PyStr.split. induction a as [|x a IH]; intros H; [reflexivity|].
  simpl in H. apply andb_prop in H. destruct H as [Hx Ha].
  simpl. rewrite Hx. simpl. rewrite split_runs_prev. exact (IH Ha).
Qed.

Lemma split_runs_snoc sep prev (s : str) c :
  sep c = true ->
  PyStr.split_runs sep prev (s ++ [c])
  = if ends_on_sep sep prev s
    then PyStr.split_runs sep prev s
    else PyStr.split_runs sep prev s ++ [[]].
Proof.
  intros Hc. revert prev. induction s as [|x s IH]; intros prev.
  - simpl. rewrite Hc. destruct prev; reflexivity.
  - cbn [app PyStr.split_runs ends_on_sep]. destruct (sep x).
    + rewrite (IH true). destruct prev; destruct (ends_on_sep sep true s);
        reflexivity.
    + rewrite (IH false).
      destruct (split_runs_cons sep false s) as [seg [rest E]]. rewrite E.
      destruct (ends_on_sep sep false s); reflexivity.
Qed.

Lemma split_before_spaces (s b : str) :
  forallb PyChar.isspace b = true -> PyStr.split (s ++ b) = PyStr.split s.
Proof.
  unfold PyStr.split. induction b as [|c b IH] using rev_ind; intros H.
  - now rewrite app_nil_r.
  - rewrite forallb_app in H. apply andb_prop in H. destruct H as [Hb Hc].
    simpl in Hc. rewrite andb_true_r in Hc.
    rewrite app_assoc, (split_runs_snoc _ _ _ _ Hc).
    destruct (ends_on_sep PyChar.isspace false (s ++ b)); [exact (IH Hb)|].
    rewrite filter_app. simpl. rewrite app_nil_r. exact (IH Hb).
Qed.

Lemma lstrip_spaces p (s : str) :
  exists a, s = a ++ PyStr.lstrip p s /\ forallb p a = true.
Proof.
  induction s as [|x s [a [IH Ha]]]; simpl.
  - exists []. split; reflexivity.
  - destruct (p x) eqn:Hx.
    + exists (x :: a). simpl. rewrite Hx. split; [f_equal; exact IH|exact Ha].
    + exists []. split; reflexivity.
Qed.

Lemma strip_spaces p (s : str) :
  exists a b,
    s = a ++ PyStr.strip p s ++ b /\ forallb p a = true /\ forallb p b = true.
Proof.
  destruct (lstrip_spaces p s) as [a [Ha Hpa]].
  destruct (lstrip_spaces p (rev (PyStr.lstrip p s))) as [b [Hb Hpb]].
  exists a, (rev b). unfold PyStr.strip, PyStr.rstrip.
  split; [|split; [exact Hpa|]].
  - rewrite <- rev_app_distr, <- Hb, rev_involutive. exact Ha.
  - rewrite forallb_forall in *. intros c Hc. apply Hpb. now apply in_rev.
Qed.

(** Trimming and normalising leave the words of a text as they are. *)
Lemma split_clean_text (text : str) :
  PyStr.split (clean_text text) = PyStr.split text.
Proof.
  destruct (strip_spaces PyChar.isspace text) as [a [b [E [Ha Hb]]]].
  rewrite E at 2.
  rewrite (split_after_spaces _ _ Ha), (split_before_spaces _ _ Hb).
  unfold clean_text, PyStr.split. now rewrite split_runs_sub_spaces.
Qed.

Lemma str_join_char sep c (seg : str) (rest : list str) :
  str_join sep ((c :: seg) :: rest) = c :: str_join sep (seg :: rest).
Proof. destruct rest; reflexivity. Qed.

Lemma tidy_join b (s : str) :
  tidy b s = true ->
  str_join (lit " ") (PyStr.split_runs PyChar.isspace b s) = s.
Proof.
  revert b. induction s as [|c s IH]; intros b; [reflexivity|].
  cbn [tidy PyStr.split_runs]. destruct (PyChar.isspace c) eqn:Hc.
  - intros H. apply andb_prop in H. destruct H as [H Ht].
    apply andb_prop in H. destruct H as [Hb Heq].
    destruct b; [discriminate|]. apply Ascii.eqb_eq in Heq. subst c.
    destruct (split_runs_cons PyChar.isspace true s) as [seg [rest E]].
    specialize (IH true Ht). rewrite E in *.
    change (str_join (lit " ") ([] :: seg :: rest))
      with ([] ++ lit " " ++ str_join (lit " ") (seg :: rest)).
    rewrite IH. reflexivity.
  - intros Ht.
    destruct (split_runs_cons PyChar.isspace false s) as [seg [rest E]].
    specialize (IH false Ht). rewrite E in *.
    rewrite str_join_char, IH. reflexivity.
Qed.

Lemma ends_clean_last p (s : str) :
  s <> [] -> (forall t c, s = t ++ [c] -> p c = false) -> ends_clean p s.
Proof.
  induction s as [|x s IH]; intros Hne Hlast; [contradiction|].
  destruct s as [|y s].
  - exact (Hlast [] x eq_refl).
  - apply IH; [discriminate|].
    intros t c E. apply (Hlast (x :: t) c). rewrite E. reflexivity.
Qed.

Lemma split_runs_full sep (s : str) prev seg rest :
  ends_clean sep s ->
  PyStr.split_runs sep prev s = seg :: rest ->
  Forall (fun w => negb (is_empty w) = true) rest
  /\ (prev = true \/ (exists c t, s = c :: t /\ sep c = false) -> seg <> []).
Proof.
  revert prev seg rest. induction s as [|c s IH]; intros prev seg rest Hend;
    [contradiction|].
  assert (Hcases : (s = [] /\ sep c = false) \/ ends_clean sep s).
  { destruct s; [left; split; [reflexivity|exact Hend]|right; exact Hend]. }
  clear Hend. destruct Hcases as [[-> Hc]|Hend].
  - simpl. rewrite Hc. intros E. injection E as <- <-.
    split; [constructor|discriminate].
  - cbn [PyStr.split_runs]. destruct (sep c) eqn:Hc.
    + destruct prev.
      * intros E. destruct (IH true seg rest Hend E) as [H1 H2].
        split; [exact H1|]. intros _. apply H2. now left.
      * destruct (split_runs_cons sep true s) as [seg1 [rest1 E1]].
        rewrite E1. intros E. injection E as <- <-.
        destruct (IH true seg1 rest1 Hend E1) as [H1 H2]. split.
        -- constructor; [|exact H1].
           destruct seg1; [exfalso; apply H2; [now left|reflexivity]|reflexivity].
        -- intros [H|[x [t [Ex Hx]]]]; [discriminate|].
           injection Ex as <- _. congruence.
    + destruct (split_runs_cons sep false s) as [seg0 [rest0 E0]].
      rewrite E0. intros E. injection E as <- <-.
      destruct (IH false seg0 rest0 Hend E0) as [H1 _].
      split; [exact H1|discriminate].
Qed.

Lemma filter_all {A} (f : A -> bool) (l : list A) :
  Forall (fun x => f x = true) l -> filter f l = l.
Proof.
  induction 1 as [|x l Hx _ IH]; simpl; [reflexivity|]. now rewrite Hx, IH.
Qed.

(** [clean_text(text)] is [" ".join(text.split())]: the words of the
    text, in order, with one space between them. *)
Theorem clean_text_joins_words (text : str) :
  clean_text text = str_join (lit " ") (PyStr.split text)
  /\ PyStr.split (clean_text text) = PyStr.split text.
Proof.
  split; [|apply split_clean_text].
  rewrite <- split_clean_text.
  assert (Ht : tidy false (clean_text text) = true) by apply sub_spaces_tidy.
  assert (Hhead := clean_text_head text).
  assert (Hlast := clean_text_last text).
  set (o := clean_text text) in *. unfold PyStr.split.
  destruct o as [|c o'] eqn:Eo; [reflexivity|].
  destruct (split_runs_cons PyChar.isspace false (c :: o')) as [seg [rest E]].
  destruct (split_runs_full PyChar.isspace (c :: o') false seg rest) as [H1 H2].
  - apply ends_clean_last; [discriminate|exact Hlast].
  - exact E.
  - rewrite filter_all.
    + symmetry. apply tidy_join, Ht.
    + rewrite E. constructor; [|exact H1].
      destruct seg; [|reflexivity]. exfalso. apply H2; [|reflexivity].
      right. exists c, o'. split; [reflexivity|]. exact (Hhead c o' eq_refl).
Qed.

(** ** The display and the export of [main] *)

Lemma letter_index_inv (letter : str) i :
  letter_index letter = Some i ->
  (i = 0 /\ letter = lit "A") \/ (i = 1 /\ letter = lit "B")
  \/ (i = 2 /\ letter = lit "C") \/ (i = 3 /\ letter = lit "D").
Proof.
  unfold letter_index, str_eqb.
  destruct (str_eq_dec letter (lit "A")); [intros [= <-]; tauto|].
  destruct (str_eq_dec letter (lit "B")); [intros [= <-]; tauto|].
  destruct (str_eq_dec letter (lit "C")); [intros [= <-]; tauto|].
  destruct (str_eq_dec letter (lit "D")); [intros [= <-]; tauto|].
  discriminate.
Qed.

Lemma options_html_from_ok (options : list str) j (html correct_answer : str) i :
  (forall k, k < j + length options ->
             str_eqb (answer_letter k) correct_answer = (k =? i)) ->
  j + length options <= 191 ->
  Main.options_html_from j options correct_answer html
  = Ok (html
        ++ concat
             (map (fun jo =>
                     styled_div (if fst jo =? i then Main.bold_style else lit "")
                                (answer_letter (fst jo)) (snd jo))
                  (combine (seq j (length options)) options))).
Proof.
  revert j html. induction options as [|option rest IH]; intros j html Hletter Hj.
  - simpl. now rewrite app_nil_r.
  - simpl in Hj. cbn [Main.options_html_from]. unfold Main.option_div, PyList.chr.
    destruct (Nat.ltb_spec (65 + j) 256) as [_|Hbig]; [|lia].
    cbn [bindE]. fold (answer_letter j).
    rewrite (Hletter j) by (simpl; lia).
    rewrite IH; [|intros k Hk; apply Hletter; simpl; lia|lia].
    cbn [length seq combine map concat fst snd]. unfold styled_div.
    now rewrite <- !app_assoc.
Qed.

(** In the quiz display of a well-formed question, the bold line is the
    one of the option equal to [correct_text], and only that one. *)
Theorem display_highlights_answer (q : QuizQuestion) :
  well_formed q ->
  exists i,
    letter_index (correct_answer q) = Some i
    /\ nth_error (options q) i = Some (correct_text q)
    /\ Main.options_html q = Ok (highlighted_html i (options q)).
Proof.
  intros [Hlen [i [Hletter Hnth]]]. exists i.
  split; [exact Hletter|]. split; [exact Hnth|].
  unfold Main.options_html, highlighted_html.
  rewrite (options_html_from_ok (options q) 0 (lit "") (correct_answer q) i);
    [reflexivity| |rewrite Hlen; lia].
  rewrite Hlen. intros k Hk.
  destruct (letter_index_inv _ _ Hletter) as [[-> ->]|[[-> ->]|[[-> ->]|[-> ->]]]];
    destruct k as [|[|[|[|k]]]]; try lia; reflexivity.
Qed.

Lemma display_highlights_answer_witness :
  well_formed fallback_question
  /\ exists i,
       letter_index (correct_answer fallback_question) = Some i
       /\ nth_error (options fallback_question) i
          = Some (correct_text fallback_question)
       /\ Main.options_html fallback_question
          = Ok (highlighted_html i (options fallback_question)).
Proof.
  assert (H : well_formed fallback_question).
  { split; [reflexivity|]. exists 0. split; reflexivity. }
  split; [exact H|]. exact (display_highlights_answer fallback_question H).
Defined.

Lemma occurs_here (x rest : str) : occurs_in x (x ++ rest).
Proof. exists [], rest. reflexivity. Qed.

Lemma occurs_refl (x : str) : occurs_in x x.
Proof. exists [], []. now rewrite app_nil_r. Qed.

Lemma occurs_later (x before s : str) : occurs_in x s -> occurs_in x (before ++ s).
Proof.
  intros [a [b ->]]. exists (before ++ a), b. now rewrite <- app_assoc.
Qed.

Lemma occurs_earlier (x s after : str) : occurs_in x s -> occurs_in x (s ++ after).
Proof.
  intros [a [b ->]]. exists a, (b ++ after). now rewrite <- !app_assoc.
Qed.

Lemma export_options_ok (options : list str) j (text : str) :
  j + length options <= 191 ->
  exists added,
    Main.export_options j options text = Ok (text ++ added)
    /\ forall option, In option options -> occurs_in option added.
Proof.
  revert j text. induction options as [|option rest IH]; intros j text Hj.
  - exists []. rewrite app_nil_r. split; [reflexivity|]. intros ? [].
  - simpl in Hj. cbn [Main.export_options]. unfold PyList.chr.
    destruct (Nat.ltb_spec (65 + j) 256) as [_|Hbig]; [|lia].
    cbn [bindE].
    destruct (IH (S j) (text ++ [ascii_of_nat (65 + j)] ++ lit ". " ++ option ++ nl))
      as [added [E Hin]]; [lia|].
    exists (([ascii_of_nat (65 + j)] ++ lit ". " ++ option ++ nl) ++ added).
    split; [rewrite E; now rewrite <- app_assoc|].
    intros o [<-|Ho].
    + apply occurs_earlier. do 2 apply occurs_later. apply occurs_here.
    + apply occurs_later. exact (Hin o Ho).
Qed.

Lemma export_questions_ok (questions : list QuizQuestion) i (text : str) :
  Forall (fun q => length (options q) = 4) questions ->
  exists added,
    Main.export_questions i questions text = Ok (text ++ added)
    /\ forall q,
         In q questions ->
         occurs_in (question q) added
         /\ (forall option, In option (options q) -> occurs_in option added)
         /\ occurs_in (answer_line q) added.
Proof.
  revert i text. induction questions as [|q rest IH]; intros i text Hall.
  - exists []. rewrite app_nil_r. split; [reflexivity|]. intros ? [].
  - inversion Hall as [|? ? Hq Hrest]; subst.
    cbn [Main.export_questions].
    set (head := nl ++ lit "### Question " ++ str_of_nat i ++ lit ": "
                 ++ question q ++ nl).
    destruct (export_options_ok (options q) 0 (text ++ head))
      as [lines [E Hlines]]; [rewrite Hq; lia|].
    rewrite E. cbn [bindE].
    set (tail := lit "**Correct Answer: " ++ correct_answer q ++ lit "**" ++ nl).
    destruct (IH (S i) (((text ++ head) ++ lines) ++ tail) Hrest)
      as [added [Erest Hin]].
    exists (head ++ lines ++ tail ++ added).
    split; [rewrite Erest; now rewrite <- !app_assoc|].
    intros q' [<-|Hq'].
    + split; [|split].
      * apply occurs_earlier. unfold head. do 4 apply occurs_later.
        apply occurs_here.
      * intros o Ho. apply occurs_later, occurs_earlier. exact (Hlines o Ho).
      * do 2 apply occurs_later. apply occurs_earlier. unfold tail, answer_line.
        exists [], nl. now rewrite <- !app_assoc.
    + destruct (Hin q' Hq') as [H1 [H2 H3]].
      split; [|split].
      * now do 3 apply occurs_later.
      * intros o Ho. do 3 apply occurs_later. exact (H2 o Ho).
      * now do 3 apply occurs_later.
Qed.

(** Exporting what [generate_content] returns raises nothing, and the
    exported text holds both assignments, every question with its options
    and its answer line, and the concepts joined by commas. *)
Theorem export_keeps_content (rank : str -> nat) (input_text : str) g :
  exists result g' text,
    generate_content rank input_text g = Ok (result, g')
    /\ Main.export_content result = Ok text
    /\ Forall (fun a => occurs_in a text) (assignments result)
    /\ Forall (fun q =>
                 occurs_in (question q) text
                 /\ Forall (fun option => occurs_in option text) (options q)
                 /\ occurs_in (answer_line q) text)
              (quiz_questions result)
    /\ occurs_in (str_join (lit ", ") (concepts_found result)) text.
Proof.
  unfold generate_content. set (text := clean_text input_text).
  destruct (extract_key_concepts_ok rank text) as [concepts [Ec [Hten _]]].
  assert (Hsmall : length concepts <= 21) by lia.
  destruct (generate_assignments_ok text concepts g Hsmall) as [a1 [a2 [g1 Ha]]].
  destruct (generate_quiz_questions_spec text concepts g1)
    as [accepted [attempts [g2 [generics [g3 [_ [_ [_ [Hq [_ [Hwf _]]]]]]]]]]].
  set (questions := accepted ++ generics) in *.
  set (head := nl ++ lit "# Educational Content Generated" ++ nl ++ nl
               ++ lit "## Assignment Questions:" ++ nl
               ++ lit "1. " ++ a1 ++ nl ++ nl
               ++ lit "2. " ++ a2 ++ nl ++ nl
               ++ lit "## Quiz Questions:" ++ nl).
  destruct (export_questions_ok questions 1 head) as [body [Eb Hbody]].
  { apply Forall_forall. intros q Hin. rewrite Forall_forall in Hwf.
    apply (Hwf q Hin). }
  set (foot := nl ++ lit "## Key Concepts:" ++ nl
               ++ str_join (lit ", ") concepts ++ nl).
  exists {| assignments := [a1; a2]; quiz_questions := questions;
            concepts_found := concepts |}, g3, ((head ++ body) ++ foot).
  cbn [assignments quiz_questions concepts_found].
  split.
  { rewrite (bind_ok _ _ _ _ _ (lift_ok _ _ _ Ec)), (bind_ok _ _ _ _ _ Ha),
      (bind_ok _ _ _ _ _ Hq). reflexivity. }
  split.
  { unfold Main.export_content.
    cbn [assignments quiz_questions concepts_found PyList.getitem nth_error bindE].
    fold head. rewrite Eb. reflexivity. }
  split; [|split].
  - repeat constructor.
    + do 2 apply occurs_earlier. unfold head. do 7 apply occurs_later.
      apply occurs_here.
    + do 2 apply occurs_earlier. unfold head. do 11 apply occurs_later.
      apply occurs_here.
  - apply Forall_forall. intros q Hin. destruct (Hbody q Hin) as [H1 [H2 H3]].
    split; [|split].
    + now apply occurs_earlier, occurs_later.
    + apply Forall_forall. intros o Ho.
      apply occurs_earlier, occurs_later. exact (H2 o Ho).
    + now apply occurs_earlier, occurs_later.
  - apply occurs_later. unfold foot. do 3 apply occurs_later. apply occurs_here.
Qed.

(** ** Early exit of the sentence loop, and the first assignment *)

(** The sentence loop stops before its last attempt only with 3 accepted
    questions: when a generic question is in the result, all
    2 * pool size attempts were made. *)
Theorem fallback_after_all_attempts (text : str) (concepts : list str) g :
  let pool := sentence_pool text in
  exists accepted attempts g1 generics g2,
    sentence_loop pool concepts [] 0 g = Ok (accepted, attempts, g1)
    /\ generate_quiz_questions text concepts g = Ok (accepted ++ generics, g2)
    /\ (generics <> [] -> attempts = 2 * length pool)
    /\ (attempts < 2 * length pool -> length accepted = 3 /\ generics = []).
Proof.
  intros pool.
  destruct (sentence_loop_spec pool concepts [] 0 g)
    as [accepted [attempts [g1 [Hloop [Hlen [_ [_ [Hmax Hexit]]]]]]]];
    [simpl; lia|constructor|].
  destruct (generate_quiz_questions_spec text concepts g)
    as [acc' [att' [g1' [generics [g2 [Hloop' [_ [_ [Hrun [Hthree _]]]]]]]]]].
  fold pool in Hloop'. rewrite Hloop in Hloop'. injection Hloop' as <- <- <-.
  exists accepted, attempts, g1, generics, g2.
  split; [exact Hloop|]. split; [exact Hrun|].
  rewrite length_app in Hthree. split.
  - intros Hgen. destruct generics as [|q rest]; [contradiction|].
    simpl in Hthree. lia.
  - intros Hlt. assert (Hfull : length accepted = 3) by lia.
    split; [exact Hfull|]. destruct generics; [reflexivity|simpl in Hthree; lia].
Qed.

(** The rejection loop of [random.sample] never ends on a random source
    that keeps drawing a position already selected, however long it is
    followed; this is why [generate_assignments] is shown to return for the
    lists that [random.sample] handles with its pool. *)
Lemma draw_unselected_constant (tries n j : nat) (selected : list nat) :
  0 < n -> j < n -> In j selected ->
  PyRandom.draw_unselected tries n selected (fun _ => j) = Raise NoReturn.
Proof.
  intros Hn Hj Hin. induction tries as [|tries IH]; [reflexivity|].
  cbn [PyRandom.draw_unselected]. unfold bind at 1, PyRandom.randbelow.
  rewrite (Nat.mod_small j n Hj).
  assert (Hsel : existsb (Nat.eqb j) selected = true).
  { apply existsb_exists. exists j. split; [exact Hin|apply Nat.eqb_refl]. }
  rewrite Hsel. exact IH.
Qed.

Example generate_assignments_no_return :
  generate_assignments (lit "") (map (fun n => str_of_nat n) (seq 0 22))
    (fun _ => 0)
  = Raise NoReturn.
Proof. vm_compute. reflexivity. Qed.

(** For a concept list of at most 21 entries, so for every ConceptSet,
    [generate_assignments] returns.  In what it returns, for a list of any
    length, the first assignment is a starter of [essay_starters] followed
    by a concept of the list in lowercase; without concept both assignments
    are the fixed fallbacks and no random number is drawn. *)
Theorem first_assignment_names_concept (text : str) (concepts : list str) g :
  (length concepts <= 21 ->
   exists assignment1 assignment2 g',
     generate_assignments text concepts g = Ok ([assignment1; assignment2], g'))
  /\ forall assignments g',
       generate_assignments text concepts g = Ok (assignments, g') ->
       exists assignment1 assignment2,
         assignments = [assignment1; assignment2]
         /\ (concepts = [] ->
             assignment1 = assignment1_fallback
             /\ assignment2 = assignment2_fallback
             /\ g' = g)
         /\ (concepts <> [] ->
             exists starter concept,
               In starter essay_starters
               /\ In concept concepts
               /\ assignment1 = assignment1_template starter concept
               /\ occurs_in (PyStr.lower concept) assignment1).
Proof.
  split; [apply generate_assignments_ok|].
  intros assignments g' Hrun.
  destruct concepts as [|c0 cs].
  - injection Hrun as <- <-.
    exists assignment1_fallback, assignment2_fallback.
    split; [reflexivity|]. split; [repeat split|]. intros H. contradiction.
  - destruct (generate_assignments_sound _ _ _ _ _ Hrun)
      as [a1 [a2 [-> [_ [Hnames _]]]]].
    destruct (Hnames ltac:(discriminate)) as [starter [concept [Hs [Hc Ha1]]]].
    exists a1, a2. split; [reflexivity|].
    split; [discriminate|]. intros _. exists starter, concept.
    split; [exact Hs|]. split; [exact Hc|]. split; [exact Ha1|].
    rewrite Ha1. unfold assignment1_template.
    do 2 apply occurs_later. apply occurs_here.
Qed.

Lemma first_assignment_names_concept_witness :
  length [lit "Elephant"; lit "Savanna"] <= 21
  /\ exists assignment1 assignment2 g',
       generate_assignments (lit "") [lit "Elephant"; lit "Savanna"]
         (fun _ => 0)
       = Ok ([assignment1; assignment2], g').
Proof.
  assert (H : length [lit "Elephant"; lit "Savanna"] <= 21) by (simpl; lia).
  split; [exact H|].
  exact (proj1 (first_assignment_names_concept (lit "")
                  [lit "Elephant"; lit "Savanna"] (fun _ => 0)) H).
Defined.
